(** * TaskFlow AI: the real-time collaboration core

    A shallow embedding of the server side of the collaboration core:
    - [Task.js]: the task document and [taskSchema.methods.hasAccess];
    - [socket/socketHandlers.js]: the [connectedUsers] registry, the
      connection handler, every [socket.on] handler and
      [broadcastUserStatus];
    - [middleware/auth.js] and [routes/tasks.js]: [checkTaskAccess] and the
      [DELETE /api/tasks/:id] route.

    Identifiers (Mongo ObjectIds rendered with [toString], Socket.IO socket
    ids, room names) are strings, as in the source.  Timestamps ([new
    Date()]) and log lines are left out of the payloads.

    Socket.IO itself is modelled by its room table: [socket.join] and
    [socket.leave] update it, [io.to(room).emit] writes to every member of
    the room, [socket.to(room).emit] to every member but the sender, and a
    closing socket leaves all its rooms before its [disconnect] handler
    runs.  The room every socket has under its own id is not tracked, no
    handler names it.  A handler runs to its end against one view of the
    Task store; the interleaving of handlers at their [await]s is not
    modelled. *)

From stdpp Require Import gmap strings list fin_maps fin_sets.
From Stdlib Require Import ZArith Ascii.

Open Scope string_scope.
Open Scope list_scope.

Set Warnings "-clear-no-such-hyp".

(** ** Task documents (models/Task.js) *)

Abbreviation UserId := string (only parsing).
Abbreviation TaskId := string (only parsing).
Abbreviation SocketId := string (only parsing).
Abbreviation Room := string (only parsing).

(** [sharedWith.permission]: enum ['view', 'edit', 'admin']. *)
Inductive Permission := View | Edit | Admin.

#[global] Instance Permission_eq_dec : EqDecision Permission.
Proof. solve_decision. Defined.

(** [assignees.role]: enum ['assignee', 'reviewer', 'observer']. *)
Inductive Role := RAssignee | RReviewer | RObserver.

Record Assignee := mkAssignee {
  assignee_user : UserId;
  assignee_role : Role
}.

Record Share := mkShare {
  share_user : UserId;
  share_permission : Permission;
  share_sharedBy : UserId
}.

Record Task := mkTask {
  task_title : string;
  task_owner : UserId;
  task_assignees : list Assignee;
  task_sharedWith : list Share;
  task_subtasks : list TaskId
}.

(** *** Array helpers of the host language *)

(** [Array.prototype.indexOf]: position of the first occurrence, -1 when
    there is none. *)
Fixpoint indexOf `{EqDecision A} (x : A) (l : list A) : Z :=
  match l with
  | [] => (-1)%Z
  | y :: l' =>
      if decide (y = x) then 0%Z
      else let i := indexOf x l' in
           if (i <? 0)%Z then (-1)%Z else (i + 1)%Z
  end.

(** [Array.prototype.some]. *)
Definition some {A} (p : A -> bool) (l : list A) : bool := existsb p l.

(** [Array.prototype.find]: the first element satisfying [p]. *)
Definition find {A} (p : A -> bool) (l : list A) : option A := List.find p l.

(** *** hasAccess *)

(** [const permissions = ['view', 'edit', 'admin']]. *)
Definition permissions : list Permission := [View; Edit; Admin].

(** [taskSchema.methods.hasAccess = function(userId, permission = 'view')]. *)
Definition hasAccess (this : Task) (userId : UserId) (permission : Permission) : bool :=
  if String.eqb (task_owner this) userId then true
  else
    let isAssignee :=
      some (fun assignee => String.eqb (assignee_user assignee) userId)
           (task_assignees this) in
    if isAssignee then true
    else
      let sharedAccess :=
        find (fun share => String.eqb (share_user share) userId)
             (task_sharedWith this) in
      match sharedAccess with
      | None => false
      | Some sharedAccess =>
          let userPermLevel := indexOf (share_permission sharedAccess) permissions in
          let requiredPermLevel := indexOf permission permissions in
          (userPermLevel >=? requiredPermLevel)%Z
      end.

(** The rank order of the specification: view(0) < edit(1) < admin(2). *)
Definition rank (p : Permission) : nat :=
  match p with View => 0 | Edit => 1 | Admin => 2 end.

(** Membership of a user in the assignee list and in the share list. *)
Definition is_assignee (t : Task) (u : UserId) : Prop :=
  exists a, a ∈ task_assignees t /\ assignee_user a = u.

Definition is_shared (t : Task) (u : UserId) : Prop :=
  exists sh, sh ∈ task_sharedWith t /\ share_user sh = u.

(** [u] appears in [sharedWith] with permission [p]: there is an entry for
    [u], and the entries for [u] carry [p]. *)
Definition shared_with_permission (t : Task) (u : UserId) (p : Permission) : Prop :=
  is_shared t u /\
  forall sh, sh ∈ task_sharedWith t -> share_user sh = u -> share_permission sh = p.

(** ** The Socket.IO server (socket/socketHandlers.js) *)

(** The authenticated user attached to a socket by [authenticateSocket]
    ([socket.userId], [socket.user]). *)
Record SocketUser := mkSocketUser {
  user_id : UserId;
  user_firstName : string;
  user_lastName : string
}.

(** [`${socket.user.firstName} ${socket.user.lastName}`]. *)
Definition userName (u : SocketUser) : string :=
  user_firstName u +:+ " " +:+ user_lastName u.

(** An entry of the [connectedUsers] map. *)
Record ConnEntry := mkConnEntry {
  conn_socketId : SocketId;
  conn_user : SocketUser
}.

Inductive Status := Online | Offline.

(** Events the server emits, one constructor per event name. *)
Inductive ServerEvent :=
| EvConnected (userId : UserId)
| EvJoinedTask (taskId : TaskId)
| EvUserJoined (userId : UserId) (name : string) (taskId : TaskId)
| EvError (message : string)
| EvUserLeft (userId : UserId) (name : string)
             (taskId : option TaskId) (reason : option string)
| EvLeftTask (taskId : TaskId)
| EvTaskUpdated (taskId : TaskId) (updates action : string)
                (updatedById : UserId) (updatedByName : string)
| EvTaskCommentNew (taskId : TaskId) (content : string) (userId : UserId)
| EvTaskTypingStatus (taskId : TaskId) (userId : UserId) (name : string)
                     (isTyping : bool)
| EvTaskStatusChanged (taskId : TaskId) (fromStatus toStatus : string)
                      (changedById : UserId) (changedByName : string)
| EvNotification (message : string) (taskId : TaskId)
                 (fromUserId : UserId) (fromUserName : string)
| EvAiChatSync (message : string)
| EvCollaborationInvited (taskId : TaskId) (taskTitle permission : string)
                         (invitedById : UserId)
| EvCollaborationInviteSent (taskId : TaskId) (invitedUserId : UserId)
| EvUserActivity (userId : UserId) (name activity : string)
                 (metadataTaskId : TaskId)
| EvUserStatus (userId : UserId) (status : Status).

(** Events a client sends, one constructor per [socket.on] handler. *)
Inductive ClientEvent :=
| JoinTask (taskId : TaskId)
| LeaveTask (taskId : TaskId)
| TaskUpdate (taskId : TaskId) (updates action : string)
| TaskComment (taskId : TaskId) (content : string)
| TaskTyping (taskId : TaskId) (isTyping : bool)
| TaskStatusChange (taskId : TaskId) (fromStatus toStatus : string)
| AiChat (message : string)
| CollaborationInvite (taskId : TaskId) (invitedUserId : UserId)
                      (permission : string)
| UserActivity (activity : string) (metadataTaskId : option TaskId)
| SocketError.

(** One event written to one socket. *)
Definition Delivery : Type := SocketId * ServerEvent.

(** The server state: the live sockets and the room table kept by the
    Socket.IO adapter, and the module-level [connectedUsers] map. *)
Record State := mkState {
  sockets : gmap SocketId SocketUser;
  rooms : gmap Room (gset SocketId);
  connectedUsers : gmap UserId ConnEntry
}.

Definition init : State := mkState ∅ ∅ ∅.

(** Room names. *)
Definition user_room (userId : UserId) : Room := "user:" +:+ userId.
Definition task_room (taskId : TaskId) : Room := "task:" +:+ taskId.

(** *** The adapter *)

Definition members (r : Room) (st : State) : gset SocketId :=
  default ∅ (rooms st !! r).

(** [socket.join(room)]. *)
Definition join (s : SocketId) (r : Room) (st : State) : State :=
  mkState (sockets st) (<[r := members r st ∪ {[s]}]> (rooms st))
          (connectedUsers st).

(** [socket.leave(room)]: a room left empty is dropped. *)
Definition leave (s : SocketId) (r : Room) (st : State) : State :=
  let ms := members r st ∖ {[s]} in
  mkState (sockets st)
          (if decide (ms = ∅) then delete r (rooms st) else <[r := ms]> (rooms st))
          (connectedUsers st).

(** The adapter's [delAll], run when a socket closes. *)
Definition leaveAll (s : SocketId) (st : State) : State :=
  mkState (sockets st)
          (filter (fun kv => kv.2 ≠ ∅) ((fun ms => ms ∖ {[s]}) <$> rooms st))
          (connectedUsers st).

(** [socket.rooms]: the rooms the socket is in. *)
Definition socket_rooms (s : SocketId) (st : State) : list Room :=
  (map_to_list (filter (fun kv => s ∈ kv.2) (rooms st))).*1.

(** [socket.emit(ev)]. *)
Definition emit_self (s : SocketId) (ev : ServerEvent) : list Delivery :=
  [(s, ev)].

(** [io.to(room).emit(ev)]: every member of the room. *)
Definition emit_room (r : Room) (st : State) (ev : ServerEvent) : list Delivery :=
  (fun m => (m, ev)) <$> elements (members r st).

(** [socket.to(room).emit(ev)]: every member of the room but the sender. *)
Definition emit_others (s : SocketId) (r : Room) (st : State) (ev : ServerEvent)
  : list Delivery :=
  (fun m => (m, ev)) <$> elements (members r st ∖ {[s]}).

(** *** The Task store as the handlers see it *)

(** Outcome of an awaited query. *)
Inductive Async (A : Type) := Resolved (a : A) | Rejected.
Arguments Resolved {A} a.
Arguments Rejected {A}.

(** The Task collection keyed by [_id]; [None] is a store whose queries
    reject. *)
Definition Db : Type := option (gmap TaskId Task).

(** The filter [{ $or: [{owner}, {'assignees.user'}, {'sharedWith.user'}] }]. *)
Definition related (userId : UserId) (t : Task) : bool :=
  String.eqb (task_owner t) userId
  || some (fun a => String.eqb (assignee_user a) userId) (task_assignees t)
  || some (fun sh => String.eqb (share_user sh) userId) (task_sharedWith t).

(** [Task.findById(taskId)]. *)
Definition findById (db : Db) (taskId : TaskId) : Async (option Task) :=
  match db with
  | None => Rejected
  | Some tasks => Resolved (tasks !! taskId)
  end.

(** [Task.findOne({ _id: taskId, $or: [...] })]. *)
Definition findOne_related (db : Db) (taskId : TaskId) (userId : UserId)
  : Async (option Task) :=
  match db with
  | None => Rejected
  | Some tasks =>
      Resolved (match tasks !! taskId with
                | Some t => if related userId t then Some t else None
                | None => None
                end)
  end.

(** [Task.find({ $or: [...] })]. *)
Definition find_related (db : Db) (userId : UserId) : Async (list Task) :=
  match db with
  | None => Rejected
  | Some tasks => Resolved (filter (fun t => related userId t = true)
                                   (map_to_list tasks).*2)
  end.

(** *** broadcastUserStatus *)

(** The users one task adds to the [collaborators] set. *)
Definition task_collaborators (userId : UserId) (t : Task) : list UserId :=
  (if String.eqb (task_owner t) userId then [] else [task_owner t])
  ++ List.filter (fun v => negb (String.eqb v userId))
                 (assignee_user <$> task_assignees t)
  ++ List.filter (fun v => negb (String.eqb v userId))
                 (share_user <$> task_sharedWith t).

Definition collaborators (userId : UserId) (collaborativeTasks : list Task)
  : gset UserId :=
  list_to_set (collaborativeTasks ≫= task_collaborators userId).

Definition broadcastUserStatus (db : Db) (st : State) (userId : UserId)
    (status : Status) : list Delivery :=
  match find_related db userId with
  | Rejected => []
  | Resolved collaborativeTasks =>
      elements (collaborators userId collaborativeTasks) ≫=
        (fun collaboratorId =>
           emit_room (user_room collaboratorId) st (EvUserStatus userId status))
  end.

(** *** The handlers *)

(** [io.on('connection', socket => ...)], after the server has accepted the
    socket. *)
Definition on_connection (db : Db) (st : State) (s : SocketId) (user : SocketUser)
  : State * list Delivery :=
  let st1 := mkState (sockets st) (rooms st)
               (<[user_id user := mkConnEntry s user]> (connectedUsers st)) in
  let st2 := join s (user_room (user_id user)) st1 in
  (st2,
   emit_self s (EvConnected (user_id user))
   ++ broadcastUserStatus db st2 (user_id user) Online).

(** [socket.on('join:task', ...)]. *)
Definition on_join_task (db : Db) (st : State) (s : SocketId) (user : SocketUser)
    (taskId : TaskId) : State * list Delivery :=
  match findOne_related db taskId (user_id user) with
  | Resolved (Some _) =>
      let st1 := join s (task_room taskId) st in
      (st1,
       emit_self s (EvJoinedTask taskId)
       ++ emit_others s (task_room taskId) st1
            (EvUserJoined (user_id user) (userName user) taskId))
  | Resolved None => (st, emit_self s (EvError "Access denied to task room"))
  | Rejected => (st, emit_self s (EvError "Failed to join task room"))
  end.

(** [socket.on('leave:task', ...)]. *)
Definition on_leave_task (st : State) (s : SocketId) (user : SocketUser)
    (taskId : TaskId) : State * list Delivery :=
  let st1 := leave s (task_room taskId) st in
  (st1,
   emit_others s (task_room taskId) st1
     (EvUserLeft (user_id user) (userName user) (Some taskId) None)
   ++ emit_self s (EvLeftTask taskId)).

(** [socket.on('task:update', ...)]. *)
Definition on_task_update (db : Db) (st : State) (s : SocketId) (user : SocketUser)
    (taskId : TaskId) (updates action : string) : State * list Delivery :=
  match findById db taskId with
  | Resolved (Some task) =>
      if hasAccess task (user_id user) Edit then
        (st, emit_others s (task_room taskId) st
               (EvTaskUpdated taskId updates action (user_id user) (userName user)))
      else (st, emit_self s (EvError "Access denied for task update"))
  | Resolved None => (st, emit_self s (EvError "Access denied for task update"))
  | Rejected => (st, emit_self s (EvError "Failed to broadcast task update"))
  end.

(** [socket.on('task:comment', ...)]. *)
Definition on_task_comment (db : Db) (st : State) (s : SocketId) (user : SocketUser)
    (taskId : TaskId) (content : string) : State * list Delivery :=
  match findById db taskId with
  | Resolved (Some task) =>
      if hasAccess task (user_id user) View then
        (st, emit_room (task_room taskId) st
               (EvTaskCommentNew taskId content (user_id user)))
      else (st, emit_self s (EvError "Access denied for commenting"))
  | Resolved None => (st, emit_self s (EvError "Access denied for commenting"))
  | Rejected => (st, emit_self s (EvError "Failed to broadcast comment"))
  end.

(** [socket.on('task:typing', ...)]. *)
Definition on_task_typing (st : State) (s : SocketId) (user : SocketUser)
    (taskId : TaskId) (isTyping : bool) : State * list Delivery :=
  (st, emit_others s (task_room taskId) st
         (EvTaskTypingStatus taskId (user_id user) (userName user) isTyping)).

(** [`Task "${task.title}" status changed to ${toStatus}`]; 034 is the
    double quote. *)
Definition status_message (title toStatus : string) : string :=
  "Task " +:+ String "034"%char (title +:+ String "034"%char (" status changed to " +:+ toStatus)).

(** The [notificationRecipients] array of the status-change handler. *)
Definition notificationRecipients (task : Task) (userId : UserId) : list UserId :=
  List.filter (fun v => negb (String.eqb v userId))
    (task_owner task
     :: (assignee_user <$> task_assignees task)
     ++ (share_user <$> task_sharedWith task)).

(** [socket.on('task:status:change', ...)]. *)
Definition on_task_status_change (db : Db) (st : State) (s : SocketId)
    (user : SocketUser) (taskId : TaskId) (fromStatus toStatus : string)
  : State * list Delivery :=
  match findById db taskId with
  | Resolved (Some task) =>
      if hasAccess task (user_id user) Edit then
        (st,
         emit_others s (task_room taskId) st
           (EvTaskStatusChanged taskId fromStatus toStatus
              (user_id user) (userName user))
         ++ (notificationRecipients task (user_id user) ≫=
               (fun userId =>
                  emit_room (user_room userId) st
                    (EvNotification
                       (status_message (task_title task) toStatus)
                       taskId (user_id user) (userName user)))))
      else (st, emit_self s (EvError "Access denied for status change"))
  | Resolved None => (st, emit_self s (EvError "Access denied for status change"))
  | Rejected => (st, emit_self s (EvError "Failed to broadcast status change"))
  end.

(** [socket.on('ai:chat', ...)]. *)
Definition on_ai_chat (st : State) (s : SocketId) (user : SocketUser)
    (message : string) : State * list Delivery :=
  (st, emit_others s (user_room (user_id user)) st (EvAiChatSync message)).

(** [socket.on('collaboration:invite', ...)]. *)
Definition on_collaboration_invite (db : Db) (st : State) (s : SocketId)
    (user : SocketUser) (taskId : TaskId) (invitedUserId : UserId)
    (permission : string) : State * list Delivery :=
  match findById db taskId with
  | Resolved (Some task) =>
      if hasAccess task (user_id user) Admin then
        (st,
         emit_room (user_room invitedUserId) st
           (EvCollaborationInvited taskId (task_title task) permission
              (user_id user))
         ++ emit_self s (EvCollaborationInviteSent taskId invitedUserId))
      else (st, emit_self s (EvError "Access denied for sending invites"))
  | Resolved None => (st, emit_self s (EvError "Access denied for sending invites"))
  | Rejected => (st, emit_self s (EvError "Failed to send collaboration invite"))
  end.

(** [socket.on('user:activity', ...)]; an empty task id is falsy. *)
Definition on_user_activity (st : State) (s : SocketId) (user : SocketUser)
    (activity : string) (metadataTaskId : option TaskId) : State * list Delivery :=
  match metadataTaskId with
  | Some taskId =>
      if String.eqb activity "task_view" && negb (String.eqb taskId "") then
        (st, emit_others s (task_room taskId) st
               (EvUserActivity (user_id user) (userName user) activity taskId))
      else (st, [])
  | None => (st, [])
  end.

(** [socket.on('disconnect', ...)].  Socket.IO runs the handler after the
    socket has left its rooms, so [st] is the state after [leaveAll]. *)
Definition on_disconnect (db : Db) (st : State) (s : SocketId) (user : SocketUser)
  : State * list Delivery :=
  let st1 := mkState (sockets st) (rooms st)
               (delete (user_id user) (connectedUsers st)) in
  (st1,
   broadcastUserStatus db st1 (user_id user) Offline
   ++ (socket_rooms s st1 ≫=
         (fun room =>
            if String.prefix "task:" room then
              emit_others s room st1
                (EvUserLeft (user_id user) (userName user) None
                   (Some "disconnected"))
            else []))).

Definition on_event (db : Db) (st : State) (s : SocketId) (user : SocketUser)
    (ev : ClientEvent) : State * list Delivery :=
  match ev with
  | JoinTask taskId => on_join_task db st s user taskId
  | LeaveTask taskId => on_leave_task st s user taskId
  | TaskUpdate taskId updates action =>
      on_task_update db st s user taskId updates action
  | TaskComment taskId content => on_task_comment db st s user taskId content
  | TaskTyping taskId isTyping => on_task_typing st s user taskId isTyping
  | TaskStatusChange taskId fromStatus toStatus =>
      on_task_status_change db st s user taskId fromStatus toStatus
  | AiChat message => on_ai_chat st s user message
  | CollaborationInvite taskId invitedUserId permission =>
      on_collaboration_invite db st s user taskId invitedUserId permission
  | UserActivity activity metadataTaskId =>
      on_user_activity st s user activity metadataTaskId
  | SocketError => (st, [])
  end.

(** *** The server as a transition system *)

Inductive Input :=
| Connect (s : SocketId) (user : SocketUser)
| Event (s : SocketId) (ev : ClientEvent)
| Disconnect (s : SocketId).

(** The transport adds an accepted socket to the live sockets and removes a
    closed one, which first leaves all its rooms. *)
Definition accept (s : SocketId) (user : SocketUser) (st : State) : State :=
  mkState (<[s := user]> (sockets st)) (rooms st) (connectedUsers st).

Definition close (s : SocketId) (st : State) : State :=
  let st1 := leaveAll s st in
  mkState (delete s (sockets st1)) (rooms st1) (connectedUsers st1).

(** One input against the store as it is when the input is handled.  A
    socket id is fresh when it connects; events and disconnects come from
    live sockets only. *)
Definition step (db : Db) (st : State) (i : Input) : option (State * list Delivery) :=
  match i with
  | Connect s user =>
      match sockets st !! s with
      | None => Some (on_connection db (accept s user st) s user)
      | Some _ => None
      end
  | Event s ev =>
      match sockets st !! s with
      | Some user => Some (on_event db st s user ev)
      | None => None
      end
  | Disconnect s =>
      match sockets st !! s with
      | Some user => Some (on_disconnect db (close s st) s user)
      | None => None
      end
  end.

(** States reachable from [init] through inputs that satisfy [ok]. *)
Inductive reachable_by (ok : State -> Input -> Prop) : State -> Prop :=
| reach_init : reachable_by ok init
| reach_step db st i st' out :
    reachable_by ok st -> ok st i -> step db st i = Some (st', out) ->
    reachable_by ok st'.

Definition reachable : State -> Prop := reachable_by (fun _ _ => True).

(** Runs a list of inputs, each with its view of the store. *)
Fixpoint run (st : State) (tr : list (Db * Input)) : option State :=
  match tr with
  | [] => Some st
  | (db, i) :: tr' =>
      match step db st i with
      | Some (st', _) => run st' tr'
      | None => None
      end
  end.

(** ** The HTTP side (middleware/auth.js, routes/tasks.js) *)

Record HttpResponse := mkResponse {
  http_status : nat;
  http_message : string
}.

(** [checkTaskAccess(permission)]: answers itself, or passes [req.task] on.
    [reqUser] is [req.user]; reading [req.user._id] of a request without a
    user throws inside the [try]. *)
Definition checkTaskAccess (permission : Permission) (db : Db)
    (reqUser : option UserId) (taskId : TaskId) : HttpResponse + Task :=
  match reqUser with
  | None => inl (mkResponse 500 "Permission check failed")
  | Some userId =>
      match findById db taskId with
      | Rejected => inl (mkResponse 500 "Permission check failed")
      | Resolved None => inl (mkResponse 404 "Task not found")
      | Resolved (Some task) =>
          if hasAccess task userId permission then inr task
          else inl (mkResponse 403
                      "You do not have permission to access this task")
      end
  end.

(** [router.delete('/:id', checkTaskAccess('admin'), ...)] on the Task
    collection. *)
Definition router_delete (tasks : gmap TaskId Task) (reqUser : option UserId)
    (taskId : TaskId) : gmap TaskId Task * HttpResponse :=
  match checkTaskAccess Admin (Some tasks) reqUser taskId with
  | inl response => (tasks, response)
  | inr task =>
      match task_subtasks task with
      | _ :: _ =>
          (tasks,
           mkResponse 400
             "Cannot delete task with subtasks. Delete subtasks first.")
      | [] => (delete taskId tasks, mkResponse 200 "Task deleted successfully")
      end
  end.

(** The process: the Task collection and the Socket.IO server.  The routes
    hold no reference to [io]; an HTTP request writes to no socket and
    leaves the socket state alone. *)
Record Server := mkServer {
  store : gmap TaskId Task;
  io : State
}.

Inductive Request :=
| Socket (i : Input)
| HttpDelete (reqUser : option UserId) (taskId : TaskId).

Definition serve (srv : Server) (rq : Request)
  : option (Server * list Delivery * option HttpResponse) :=
  match rq with
  | Socket i =>
      match step (Some (store srv)) (io srv) i with
      | Some (st', out) => Some (mkServer (store srv) st', out, None)
      | None => None
      end
  | HttpDelete reqUser taskId =>
      let '(tasks', response) := router_delete (store srv) reqUser taskId in
      Some (mkServer tasks' (io srv), [], Some response)
  end.

(** ** Properties of the core *)

(** The live connections of a user ([connectionsOf] of the specification). *)
Definition connectionsOf (userId : UserId) (st : State) : gset SocketId :=
  dom (filter (fun kv => user_id kv.2 = userId) (sockets st)).

(** The socket ids recorded in [connectedUsers]. *)
Definition registry_sockets (st : State) : list SocketId :=
  (fun kv => conn_socketId kv.2) <$> map_to_list (connectedUsers st).

(** A connection is present in the registry. *)
Definition registered (s : SocketId) (st : State) : Prop :=
  s ∈ registry_sockets st.

#[global] Instance registered_dec s st : Decision (registered s st).
Proof. unfold registered. apply _. Defined.

(** Every member of every room is present in the registry. *)
Definition rooms_registered (st : State) : Prop :=
  forall r m, m ∈ members r st -> registered m st.

(** Every member of every room is a live socket. *)
Definition rooms_live (st : State) : Prop :=
  forall r m, m ∈ members r st -> is_Some (sockets st !! m).

(** Every live socket is the registry entry of its user. *)
Definition sockets_registered (st : State) : Prop :=
  forall s user, sockets st !! s = Some user ->
    connectedUsers st !! user_id user = Some (mkConnEntry s user).

(** Inputs under which no user ever holds two connections at once: a user
    connects only while having no live connection. *)
Definition single_session (st : State) (i : Input) : Prop :=
  match i with
  | Connect _ user => connectionsOf (user_id user) st = ∅
  | _ => True
  end.

#[global] Instance single_session_dec st i : Decision (single_session st i).
Proof. destruct i; simpl; apply _. Defined.

(** Runs a list of inputs as long as they are single-session inputs. *)
Fixpoint run_single (st : State) (tr : list (Db * Input)) : option State :=
  match tr with
  | [] => Some st
  | (db, i) :: tr' =>
      if bool_decide (single_session st i) then
        match step db st i with
        | Some (st', _) => run_single st' tr'
        | None => None
        end
      else None
  end.

(** The collaborators of a user over a Task collection. *)
Definition collaboratorsOf (tasks : gmap TaskId Task) (userId : UserId)
  : gset UserId :=
  collaborators userId
    (filter (fun t => related userId t = true) (map_to_list tasks).*2).

(** A user takes part in a task. *)
Definition takes_part (t : Task) (u : UserId) : Prop :=
  task_owner t = u \/ is_assignee t u \/ is_shared t u.

(** *** Readings of the specification that the code does not meet *)

(** Assignees are granted view and edit and refused admin. *)
Definition assignee_rule_as_specified (t : Task) (a : UserId) : Prop :=
  task_owner t <> a -> is_assignee t a ->
  hasAccess t a View = true /\ hasAccess t a Edit = true /\
  hasAccess t a Admin = false.

(** A user with a share entry of permission [p], whichever entry it is, is
    granted exactly the permissions of rank at most [rank p]. *)
Definition shared_rank_as_specified (t : Task) (a : UserId) : Prop :=
  task_owner t <> a -> ~ is_assignee t a ->
  (forall sh required,
     sh ∈ task_sharedWith t -> share_user sh = a ->
     (hasAccess t a required = true <-> rank required <= rank (share_permission sh)))
  /\ (~ is_shared t a -> forall required, hasAccess t a required = false).

(** [sh] is the first entry of [a] in the share list of [t]. *)
Definition first_share (t : Task) (a : UserId) (sh : Share) : Prop :=
  exists before after,
    task_sharedWith t = before ++ sh :: after
    /\ share_user sh = a
    /\ forall x, x ∈ before -> share_user x <> a.

(** A second connection of a user is not announced as online. *)
Definition second_connection_silent (db : Db) (st : State) (s : SocketId)
    (user : SocketUser) : Prop :=
  size (connectionsOf (user_id user) st) = 1 ->
  forall st' out, step db st (Connect s user) = Some (st', out) ->
  forall m, (m, EvUserStatus (user_id user) Online) ∉ out.

(** Closing one of two connections of a user is not announced as offline. *)
Definition first_disconnect_silent (db : Db) (st : State) (s : SocketId) : Prop :=
  forall user, sockets st !! s = Some user ->
  size (connectionsOf (user_id user) st) = 2 ->
  forall st' out, step db st (Disconnect s) = Some (st', out) ->
  forall m, (m, EvUserStatus (user_id user) Offline) ∉ out.

(** A comment reaches the other members of the task room and not its
    sender. *)
Definition comment_skips_sender (db : Db) (st : State) (s : SocketId)
    (taskId : TaskId) (content : string) : Prop :=
  forall user st' out,
    sockets st !! s = Some user ->
    s ∈ members (task_room taskId) st ->
    step db st (Event s (TaskComment taskId content)) = Some (st', out) ->
    (forall m, m ∈ members (task_room taskId) st -> m <> s ->
       (m, EvTaskCommentNew taskId content (user_id user)) ∈ out)
    /\ (forall e, (s, e) ∉ out).

(** A successful delete reaches every member of the task room and empties
    the room. *)
Definition delete_fans_out (srv : Server) (reqUser : option UserId)
    (taskId : TaskId) : Prop :=
  forall srv' out response,
    serve srv (HttpDelete reqUser taskId) = Some (srv', out, Some response) ->
    http_status response = 200 ->
    (forall m, m ∈ members (task_room taskId) (io srv) -> exists e, (m, e) ∈ out)
    /\ members (task_room taskId) (io srv') = ∅.

(** A typing event of a user without view access reaches no member of the
    task room. *)
Definition typing_access_checked (tasks : gmap TaskId Task) (st : State) (s : SocketId)
    (taskId : TaskId) (isTyping : bool) : Prop :=
  forall user task st' out,
    sockets st !! s = Some user ->
    tasks !! taskId = Some task ->
    hasAccess task (user_id user) View = false ->
    step (Some tasks) st (Event s (TaskTyping taskId isTyping)) = Some (st', out) ->
    forall m e, m ∈ members (task_room taskId) st -> (m, e) ∉ out.

(** *** A small deployment used in the examples *)

Definition ann : SocketUser := mkSocketUser "u1" "Ann" "Lee".
Definition bob : SocketUser := mkSocketUser "u2" "Bob" "Roy".
Definition cyd : SocketUser := mkSocketUser "u3" "Cyd" "Moe".
Definition dee : SocketUser := mkSocketUser "u4" "Dee" "Kay".

(** Ann owns the task, Bob is assigned to it, Dee may edit it; Cyd has no
    part in it. *)
Definition demo_task : Task :=
  mkTask "Write report" "u1" [mkAssignee "u2" RAssignee]
         [mkShare "u4" Edit "u1"] [].

(** Ann's task with two share entries for Bob, as a create or update
    request with such a [sharedWith] array stores it. *)
Definition twice_shared_task : Task :=
  mkTask "Plan" "u1" [] [mkShare "u2" View "u1"; mkShare "u2" Admin "u1"] [].

Definition demo_tasks : gmap TaskId Task := {[ "T1" := demo_task ]}.

Definition demo_db : Db := Some demo_tasks.

(** Ann and Bob are connected. *)
Definition demo_connected : list (Db * Input) :=
  [(demo_db, Connect "s1" ann); (demo_db, Connect "s2" bob)].

(** Ann and Bob are connected and both in the room of the task. *)
Definition demo_in_room : list (Db * Input) :=
  demo_connected
  ++ [(demo_db, Event "s1" (JoinTask "T1")); (demo_db, Event "s2" (JoinTask "T1"))].

(** Ann opens a second connection. *)
Definition demo_two_tabs : list (Db * Input) :=
  demo_connected ++ [(demo_db, Connect "s3" ann)].

(** Ann closes her second connection again. *)
Definition demo_tab_closed : list (Db * Input) :=
  demo_two_tabs ++ [(demo_db, Disconnect "s3")].

(** Bob is in the room of the task and Cyd is connected. *)
Definition demo_outsider : list (Db * Input) :=
  [(demo_db, Connect "s2" bob); (demo_db, Event "s2" (JoinTask "T1"));
   (demo_db, Connect "s5" cyd)].

(** The state a trace leads to. *)
Definition state_after (tr : list (Db * Input)) : State :=
  default init (run init tr).

(** The demo store with Ann and Bob in the room of the task. *)
Definition demo_server : Server :=
  mkServer demo_tasks (state_after demo_in_room).

(** ** More of the HTTP side (middleware/auth.js, routes/tasks.js) *)

(** [checkOwnership(model)] on the Task model. *)
Definition checkOwnership (db : Db) (reqUser : option UserId)
    (resourceId : TaskId) : HttpResponse + Task :=
  match reqUser with
  | None => inl (mkResponse 500 "Permission check failed")
  | Some userId =>
      match findById db resourceId with
      | Rejected => inl (mkResponse 500 "Permission check failed")
      | Resolved None => inl (mkResponse 404 "Resource not found")
      | Resolved (Some resource) =>
          if String.eqb (task_owner resource) userId then inr resource
          else inl (mkResponse 403
                      "You do not have permission to access this resource")
      end
  end.

(** The validator [body('permission').isIn(['view', 'edit', 'admin'])]:
    the permission of the request body, when it is one of the three. *)
Definition parse_permission (permission : string) : option Permission :=
  if String.eqb permission "view" then Some View
  else if String.eqb permission "edit" then Some Edit
  else if String.eqb permission "admin" then Some Admin
  else None.

(** [existingShare.permission = permission] on the entry that
    [task.sharedWith.find(share => share.user.toString() === userId)]
    returns: the first entry of the user. *)
Fixpoint set_permission (userId : UserId) (permission : Permission)
    (sharedWith : list Share) : list Share :=
  match sharedWith with
  | [] => []
  | share :: rest =>
      if String.eqb (share_user share) userId then
        mkShare (share_user share) permission (share_sharedBy share) :: rest
      else share :: set_permission userId permission rest
  end.

(** One round of the loop [for (const userId of userIds)] of the share
    route.  The entries in the document carry user ids as ObjectIds, read
    back with [toString()], and are compared with the string of the
    request as it is.  [cast] is Mongoose's cast of a string to an ObjectId
    read back with [toString()]: a pushed entry is stored under the cast
    id, and a string that does not cast makes the request fail. *)
Definition share_with (cast : UserId -> option UserId) (sharedBy : UserId)
    (permission : Permission) (sharedWith : list Share) (userId : UserId)
  : option (list Share) :=
  match find (fun share => String.eqb (share_user share) userId) sharedWith with
  | Some _ => Some (set_permission userId permission sharedWith)
  | None =>
      match cast userId with
      | Some user => Some (sharedWith ++ [mkShare user permission sharedBy])
      | None => None
      end
  end.

(** The whole loop, followed by [task.save()]; [None] when the request
    fails on an id that does not cast. *)
Fixpoint share_each (cast : UserId -> option UserId) (sharedBy : UserId)
    (permission : Permission) (sharedWith : list Share) (userIds : list UserId)
  : option (list Share) :=
  match userIds with
  | [] => Some sharedWith
  | userId :: rest =>
      match share_with cast sharedBy permission sharedWith userId with
      | Some sharedWith' => share_each cast sharedBy permission sharedWith' rest
      | None => None
      end
  end.

(** [router.post('/:id/share', checkTaskAccess('admin'), [...], ...)].
    [Task.findById] casts the id of the path like any other id: a string
    that does not cast rejects the lookup, and the task is looked up and
    stored under the cast id. *)
Definition router_share (cast : UserId -> option UserId)
    (tasks : gmap TaskId Task) (reqUser : option UserId) (taskId : TaskId)
    (userIds : list UserId) (permission : string)
  : gmap TaskId Task * HttpResponse :=
  match cast taskId with
  | None => (tasks, mkResponse 500 "Permission check failed")
  | Some id =>
      match checkTaskAccess Admin (Some tasks) reqUser id, reqUser with
      | inl response, _ => (tasks, response)
      | inr _, None => (tasks, mkResponse 500 "Failed to share task")
      | inr task, Some sharedBy =>
          match parse_permission permission with
          | None => (tasks, mkResponse 400 "Validation failed")
          | Some p =>
              match share_each cast sharedBy p (task_sharedWith task) userIds with
              | Some sharedWith' =>
                  (<[id :=
                       mkTask (task_title task) (task_owner task)
                         (task_assignees task) sharedWith' (task_subtasks task)]>
                     tasks,
                   mkResponse 200 "Task shared successfully")
              | None => (tasks, mkResponse 500 "Failed to share task")
              end
          end
      end
  end.

(** The cast leaves an id in the form it produces unchanged. *)
Definition cast_idempotent (cast : UserId -> option UserId) : Prop :=
  forall u c, cast u = Some c -> cast c = Some c.

(** The share entries of the task carry ids in the form the cast
    produces, as entries read from the store do. *)
Definition shares_canonical (cast : UserId -> option UserId)
    (sharedWith : list Share) : Prop :=
  forall sh, sh ∈ sharedWith -> cast (share_user sh) = Some (share_user sh).

(** Every task of the store has its share entries in that form. *)
Definition store_canonical (cast : UserId -> option UserId)
    (tasks : gmap TaskId Task) : Prop :=
  forall taskId task, tasks !! taskId = Some task ->
    shares_canonical cast (task_sharedWith task).

(** A cast for the examples: [U3] is another spelling of [u3], [zz] does
    not cast, every other string is in its own form. *)
Definition demo_cast (u : UserId) : option UserId :=
  if String.eqb u "U3" then Some "u3"
  else if String.eqb u "zz" then None
  else Some u.

(** ** Publishing events *)

(** The task and the permission a publishing handler checks before it
    emits; the other handlers check nothing. *)
Definition required_permission (ev : ClientEvent) : option (TaskId * Permission) :=
  match ev with
  | TaskUpdate taskId _ _ => Some (taskId, Edit)
  | TaskComment taskId _ => Some (taskId, View)
  | TaskStatusChange taskId _ _ => Some (taskId, Edit)
  | CollaborationInvite taskId _ _ => Some (taskId, Admin)
  | _ => None
  end.

(** The events that change the room table. *)
Definition changes_rooms (ev : ClientEvent) : bool :=
  match ev with
  | JoinTask _ | LeaveTask _ => true
  | _ => false
  end.


(** ** More invariants *)

(** The inbox room of a user holds connections of that user only. *)
Definition inbox_owned (st : State) : Prop :=
  forall u m, m ∈ members (user_room u) st ->
    exists user, sockets st !! m = Some user /\ user_id user = u.

(** Every live connection is in the inbox room of its user. *)
Definition inbox_complete (st : State) : Prop :=
  forall s user, sockets st !! s = Some user ->
    s ∈ members (user_room (user_id user)) st.

(** Every entry of the registry names a live connection of its user. *)
Definition registry_live (st : State) : Prop :=
  forall u e, connectedUsers st !! u = Some e ->
    sockets st !! conn_socketId e = Some (conn_user e)
    /\ user_id (conn_user e) = u.

(** Ann, Bob and Dee are connected, Ann twice. *)
Definition demo_everyone : list (Db * Input) :=
  [(demo_db, Connect "s1" ann); (demo_db, Connect "s2" bob);
   (demo_db, Connect "s3" ann); (demo_db, Connect "s4" dee);
   (demo_db, Event "s2" (JoinTask "T1"))].

(** The permission of the first share entry of a user, the one
    [hasAccess] reads. *)
Definition first_permission (sharedWith : list Share) (u : UserId)
  : option Permission :=
  share_permission <$> find (fun share => String.eqb (share_user share) u) sharedWith.

(** ** More of the task document (models/Task.js, routes/tasks.js) *)

(** [status]: enum ['todo', 'in-progress', 'review', 'completed',
    'cancelled']. *)
Inductive TaskStatus := Todo | InProgress | Review | Completed | Cancelled.

#[global] Instance TaskStatus_eq_dec : EqDecision TaskStatus.
Proof. solve_decision. Defined.

(** The task document with its status, dates and archive flag; dates are
    milliseconds. *)
Record TaskDoc := mkTaskDoc {
  doc_task : Task;
  doc_status : TaskStatus;
  doc_dueDate : option Z;
  doc_completedAt : option Z;
  doc_completedBy : option UserId;
  doc_isArchived : bool
}.

(** [taskSchema.virtual('isOverdue')], [now] standing for [new Date()]. *)
Definition isOverdue (now : Z) (this : TaskDoc) : bool :=
  match doc_dueDate this with
  | Some dueDate =>
      (dueDate <? now)%Z && negb (bool_decide (doc_status this = Completed))
  | None => false
  end.

(** [taskSchema.virtual('progress')]. *)
Definition progress (this : TaskDoc) : nat :=
  match task_subtasks (doc_task this) with
  | _ :: _ => 0
  | [] => if bool_decide (doc_status this = Completed) then 100 else 0
  end.

(** The two fields the GET routes add to a lean task
    ([tasksWithVirtuals], [taskWithVirtuals]). *)
Definition route_virtuals (now : Z) (task : TaskDoc) : bool * nat :=
  (match doc_dueDate task with
   | Some dueDate =>
       (dueDate <? now)%Z && negb (bool_decide (doc_status task = Completed))
   | None => false
   end,
   if bool_decide (doc_status task = Completed) then 100 else 0).

(** [taskSchema.pre('save', ...)]; [statusModified] is
    [this.isModified('status')]. *)
Definition pre_save (now : Z) (statusModified : bool) (this : TaskDoc) : TaskDoc :=
  if statusModified then
    match doc_status this, doc_completedAt this with
    | Completed, None =>
        mkTaskDoc (doc_task this) (doc_status this) (doc_dueDate this)
                  (Some now) (doc_completedBy this) (doc_isArchived this)
    | Completed, Some _ => this
    | _, _ =>
        mkTaskDoc (doc_task this) (doc_status this) (doc_dueDate this)
                  None None (doc_isArchived this)
    end
  else this.

(** [taskSchema.methods.complete = function(userId)]: sets the three
    fields and saves, which runs the hook above with whatever
    [this.isModified('status')] is at that point. *)
Definition complete (now : Z) (statusModified : bool) (this : TaskDoc)
    (userId : UserId) : TaskDoc :=
  pre_save now statusModified
    (mkTaskDoc (doc_task this) Completed (doc_dueDate this)
               (Some now) (Some userId) (doc_isArchived this)).

(** *** GET /api/tasks/stats/overview *)

(** The [$match] stage: tasks the user owns or is assigned to, not
    archived.  Tasks only shared with the user are not selected. *)
Definition stats_match (userId : UserId) (d : TaskDoc) : bool :=
  (String.eqb (task_owner (doc_task d)) userId
   || some (fun a => String.eqb (assignee_user a) userId)
           (task_assignees (doc_task d)))
  && negb (doc_isArchived d).

Definition count_status (st : TaskStatus) (docs : list TaskDoc) : nat :=
  length (filter (fun d => doc_status d = st) docs).

(** The [$group] stage: one [{ _id: status, count }] per status that
    occurs. *)
Definition group_by_status (docs : list TaskDoc) : list (TaskStatus * nat) :=
  filter (fun g => g.2 <> 0)
    ((fun st => (st, count_status st docs))
       <$> [Todo; InProgress; Review; Completed; Cancelled]).

Record Stats := mkStats {
  stats_total : nat;
  stats_todo : nat;
  stats_in_progress : nat;
  stats_review : nat;
  stats_completed : nat;
  stats_cancelled : nat;
  stats_overdue : nat
}.

(** [formattedStats[stat._id] = stat.count; formattedStats.total +=
    stat.count]. *)
Definition add_stat (acc : Stats) (stat : TaskStatus * nat) : Stats :=
  let total := stats_total acc + stat.2 in
  match stat.1 with
  | Todo =>
      mkStats total stat.2 (stats_in_progress acc) (stats_review acc)
              (stats_completed acc) (stats_cancelled acc) (stats_overdue acc)
  | InProgress =>
      mkStats total (stats_todo acc) stat.2 (stats_review acc)
              (stats_completed acc) (stats_cancelled acc) (stats_overdue acc)
  | Review =>
      mkStats total (stats_todo acc) (stats_in_progress acc) stat.2
              (stats_completed acc) (stats_cancelled acc) (stats_overdue acc)
  | Completed =>
      mkStats total (stats_todo acc) (stats_in_progress acc) (stats_review acc)
              stat.2 (stats_cancelled acc) (stats_overdue acc)
  | Cancelled =>
      mkStats total (stats_todo acc) (stats_in_progress acc) (stats_review acc)
              (stats_completed acc) stat.2 (stats_overdue acc)
  end.

(** The [countDocuments] query for overdue tasks. *)
Definition overdue_match (now : Z) (userId : UserId) (d : TaskDoc) : bool :=
  stats_match userId d
  && match doc_dueDate d with
     | Some dueDate => (dueDate <? now)%Z
     | None => false
     end
  && negb (bool_decide (doc_status d = Completed)).

(** The [stats] object of the answer. *)
Definition stats_overview (now : Z) (docs : list TaskDoc) (userId : UserId)
  : Stats :=
  let overdueCount := length (List.filter (overdue_match now userId) docs) in
  foldl add_stat (mkStats 0 0 0 0 0 0 overdueCount)
        (group_by_status (List.filter (stats_match userId) docs)).
(** ** Lemmas on hasAccess *)

Lemma indexOf_permissions p : indexOf p permissions = Z.of_nat (rank p).
Proof. by destruct p. Qed.

Lemma some_assignee_true t u :
  some (fun a => String.eqb (assignee_user a) u) (task_assignees t) = true <->
  is_assignee t u.
Proof.
  unfold some, is_assignee. rewrite existsb_exists. split.
  - intros (a & Hin & Heq). exists a. split; [by apply list_elem_of_In|].
    by apply String.eqb_eq.
  - intros (a & Hin & Heq). exists a. split; [by apply list_elem_of_In|].
    by apply String.eqb_eq.
Qed.

Lemma some_assignee_false t u :
  some (fun a => String.eqb (assignee_user a) u) (task_assignees t) = false <->
  ~ is_assignee t u.
Proof.
  rewrite <- some_assignee_true. destruct (some _ _); naive_solver.
Qed.

Lemma find_share_Some t u sh :
  find (fun s => String.eqb (share_user s) u) (task_sharedWith t) = Some sh ->
  sh ∈ task_sharedWith t /\ share_user sh = u.
Proof.
  unfold find. intros H. apply find_some in H as [Hin Heq]. split.
  - by apply list_elem_of_In.
  - by apply String.eqb_eq.
Qed.

Lemma find_share_None t u :
  find (fun s => String.eqb (share_user s) u) (task_sharedWith t) = None <->
  ~ is_shared t u.
Proof.
  unfold find, is_shared. split.
  - intros H (sh & Hin & Heq).
    apply list_elem_of_In in Hin.
    pose proof (find_none _ _ H _ Hin) as Hf. simpl in Hf.
    apply String.eqb_neq in Hf. done.
  - intros Hn. destruct (List.find _ _) as [sh|] eqn:E; [|done].
    apply find_some in E as [Hin Heq]. exfalso. apply Hn. exists sh.
    split; [by apply list_elem_of_In | by apply String.eqb_eq].
Qed.

Lemma hasAccess_owner t u p : task_owner t = u -> hasAccess t u p = true.
Proof. intros <-. unfold hasAccess. by rewrite String.eqb_refl. Qed.

Lemma hasAccess_assignee t u p : is_assignee t u -> hasAccess t u p = true.
Proof.
  intros H. unfold hasAccess. destruct (String.eqb _ _); [done|].
  apply some_assignee_true in H. by rewrite H.
Qed.

(** Outside the owner and assignee rules the answer is read off the first
    share entry of the user. *)
Lemma hasAccess_shared t u p :
  task_owner t <> u -> ~ is_assignee t u ->
  hasAccess t u p =
    match find (fun s => String.eqb (share_user s) u) (task_sharedWith t) with
    | None => false
    | Some sh => bool_decide (rank p <= rank (share_permission sh))
    end.
Proof.
  intros Ho Ha. unfold hasAccess.
  apply String.eqb_neq in Ho. rewrite Ho.
  apply some_assignee_false in Ha. rewrite Ha.
  destruct (find _ _) as [sh|]; [|done].
  rewrite !indexOf_permissions.
  rewrite Z.geb_leb.
  destruct (bool_decide_reflect (rank p <= rank (share_permission sh)));
    [apply Z.leb_le | apply Z.leb_gt]; lia.
Qed.

(** A user with view access is related to the task, and conversely. *)
Lemma hasAccess_view_iff t u :
  hasAccess t u View = true <->
  task_owner t = u \/ is_assignee t u \/ is_shared t u.
Proof.
  split.
  - intros H. destruct (decide (task_owner t = u)) as [|Ho]; [by left|].
    right. destruct (some (fun a => String.eqb (assignee_user a) u)
                          (task_assignees t)) eqn:Ea.
    + left. by apply some_assignee_true.
    + right. apply some_assignee_false in Ea.
      rewrite hasAccess_shared in H by done.
      destruct (find _ _) as [sh|] eqn:Ef; [|done].
      apply find_share_Some in Ef. by exists sh.
  - intros [Ho | [Ha | Hs]].
    + by apply hasAccess_owner.
    + by apply hasAccess_assignee.
    + destruct (decide (task_owner t = u)) as [|Ho]; [by apply hasAccess_owner|].
      destruct (some (fun a => String.eqb (assignee_user a) u)
                     (task_assignees t)) eqn:Ea.
      * apply hasAccess_assignee. by apply some_assignee_true.
      * apply some_assignee_false in Ea. rewrite hasAccess_shared by done.
        destruct (find _ _) as [sh|] eqn:Ef.
        -- apply bool_decide_eq_true. simpl. lia.
        -- by apply find_share_None in Ef.
Qed.

(** ** The access policy *)

Lemma is_shared_find t u :
  is_shared t u ->
  exists sh, find (fun s => String.eqb (share_user s) u) (task_sharedWith t) = Some sh.
Proof.
  intros Hs. destruct (find _ _) as [sh|] eqn:Ef; [by exists sh|].
  by apply find_share_None in Ef.
Qed.

Lemma demo_task_assignee u : is_assignee demo_task u <-> u = "u2".
Proof.
  unfold is_assignee. simpl. setoid_rewrite list_elem_of_singleton. split.
  - by intros (a & -> & <-).
  - intros ->. by eexists.
Qed.

Lemma demo_task_shared u : is_shared demo_task u <-> u = "u4".
Proof.
  unfold is_shared. simpl. setoid_rewrite list_elem_of_singleton. split.
  - by intros (a & -> & <-).
  - intros ->. by eexists.
Qed.

(** With several entries for one user the first one decides. *)
Example hasAccess_first_entry_wins :
  let t := mkTask "t" "u1" [] [mkShare "u2" View "u1"; mkShare "u2" Admin "u1"] [] in
  hasAccess t "u2" View = true /\ hasAccess t "u2" Admin = false.
Proof. by vm_compute. Qed.

(** C1, as specified, fails: Bob is assigned to the demo task and does not
    own it, and [hasAccess] grants him admin. *)
Lemma assignee_rule_as_specified_fails :
  ~ assignee_rule_as_specified demo_task "u2".
Proof.
  intros H. destruct H as (_ & _ & Hadmin).
  - done.
  - by apply demo_task_assignee.
  - by vm_compute in Hadmin.
Qed.

(** C1 (amended): an actor who is not the owner and appears in the assignee
    list is granted every permission, admin included, whatever the share
    list says about the actor. *)
Theorem hasAccess_assignee_any_permission (t : Task) (a : UserId) (p : Permission) :
  task_owner t <> a -> is_assignee t a -> hasAccess t a p = true.
Proof. intros _ Ha. by apply hasAccess_assignee. Qed.

Lemma hasAccess_assignee_any_permission_witness :
  hasAccess (mkTask "t" "u1" [mkAssignee "u2" RObserver]
                    [mkShare "u2" View "u1"] []) "u2" Admin = true.
Proof.
  apply hasAccess_assignee_any_permission.
  - done.
  - exists (mkAssignee "u2" RObserver). split; [by left | done].
Defined.

(** When all the entries of the user carry one permission [p], the user is
    granted exactly the permissions of rank at most [rank p]. *)
Theorem hasAccess_shared_rank (t : Task) (a : UserId) :
  task_owner t <> a -> ~ is_assignee t a ->
  (forall p required,
     shared_with_permission t a p ->
     (hasAccess t a required = true <-> rank required <= rank p))
  /\ (~ is_shared t a -> forall required, hasAccess t a required = false).
Proof.
  intros Ho Ha. split.
  - intros p required [Hs Hp]. rewrite hasAccess_shared by done.
    destruct (is_shared_find _ _ Hs) as [sh Ef]. rewrite Ef.
    apply find_share_Some in Ef as [Hin Hu].
    rewrite (Hp sh Hin Hu). apply bool_decide_eq_true.
  - intros Hs required. rewrite hasAccess_shared by done.
    apply find_share_None in Hs. by rewrite Hs.
Qed.

Lemma hasAccess_shared_rank_witness :
  (hasAccess demo_task "u4" Edit = true <-> rank Edit <= rank Edit)
  /\ (hasAccess demo_task "u4" Admin = true <-> rank Admin <= rank Edit)
  /\ hasAccess demo_task "u3" View = false.
Proof.
  assert (Hsh : shared_with_permission demo_task "u4" Edit).
  { split; [by apply demo_task_shared|].
    intros sh Hin _. apply list_elem_of_singleton in Hin. by subst. }
  split; [|split].
  - by apply (hasAccess_shared_rank demo_task "u4");
      [done | rewrite demo_task_assignee |].
  - by apply (hasAccess_shared_rank demo_task "u4");
      [done | rewrite demo_task_assignee |].
  - by apply (hasAccess_shared_rank demo_task "u3");
      [done | rewrite demo_task_assignee | rewrite demo_task_shared].
Defined.

Lemma find_first_share t a sh :
  first_share t a sh ->
  find (fun s => String.eqb (share_user s) a) (task_sharedWith t) = Some sh.
Proof.
  intros (before & after & -> & Hu & Hb). unfold find.
  induction before as [|x before IH]; simpl.
  - by rewrite (proj2 (String.eqb_eq _ _) Hu).
  - rewrite (proj2 (String.eqb_neq _ _)); [|apply Hb; by left].
    apply IH. intros y Hy. apply Hb. by right.
Qed.

(** C7, as specified, fails: Bob appears in the share list of the task with
    permission admin, behind an entry that gives him view, and is refused
    admin. *)
Lemma shared_rank_as_specified_fails :
  ~ shared_rank_as_specified twice_shared_task "u2".
Proof.
  intros H. destruct H as [Hiff _].
  - done.
  - intros (a & Hin & _). by apply elem_of_nil in Hin.
  - assert (Hadmin : hasAccess twice_shared_task "u2" Admin = true).
    { apply (Hiff (mkShare "u2" Admin "u1") Admin); [|done|done].
      right. left. }
    by vm_compute in Hadmin.
Qed.

(** C7 (amended): for an actor who is neither owner nor assignee, the first
    share entry of the actor decides: with permission [p] in it the actor
    is granted exactly the permissions of rank at most [rank p], whatever
    later entries say; without a share entry every permission is
    refused. *)
Theorem hasAccess_first_share_rank (t : Task) (a : UserId) :
  task_owner t <> a -> ~ is_assignee t a ->
  (forall sh required,
     first_share t a sh ->
     (hasAccess t a required = true <-> rank required <= rank (share_permission sh)))
  /\ (~ is_shared t a -> forall required, hasAccess t a required = false).
Proof.
  intros Ho Ha. split.
  - intros sh required Hf. rewrite hasAccess_shared by done.
    rewrite (find_first_share _ _ _ Hf). apply bool_decide_eq_true.
  - intros Hs required. rewrite hasAccess_shared by done.
    apply find_share_None in Hs. by rewrite Hs.
Qed.

Lemma hasAccess_first_share_rank_witness :
  (hasAccess twice_shared_task "u2" View = true <-> rank View <= rank View)
  /\ (hasAccess twice_shared_task "u2" Admin = true <-> rank Admin <= rank View)
  /\ hasAccess twice_shared_task "u3" View = false.
Proof.
  assert (Hna : forall u, ~ is_assignee twice_shared_task u).
  { intros u (a & Hin & _). by apply elem_of_nil in Hin. }
  assert (Hf : first_share twice_shared_task "u2" (mkShare "u2" View "u1")).
  { exists [], [mkShare "u2" Admin "u1"]. split; [done|]. split; [done|].
    intros x Hx. by apply elem_of_nil in Hx. }
  destruct (hasAccess_first_share_rank twice_shared_task "u2"
              ltac:(done) (Hna "u2")) as [Hfirst _].
  destruct (hasAccess_first_share_rank twice_shared_task "u3"
              ltac:(done) (Hna "u3")) as [_ Hnone].
  split; [|split].
  - apply (Hfirst _ View Hf).
  - apply (Hfirst _ Admin Hf).
  - apply Hnone.
    intros (sh & Hin & Hu). apply list_elem_of_In in Hin. simpl in Hin.
    destruct Hin as [<- | [<- | []]]; done.
Defined.
(** ** Rooms and emission *)

Lemma elem_of_List_filter {A} (f : A -> bool) (l : list A) (x : A) :
  x ∈ List.filter f l <-> x ∈ l /\ f x = true.
Proof. by rewrite !list_elem_of_In, filter_In. Qed.

Lemma elem_of_emit_room r st ev m e :
  (m, e) ∈ emit_room r st ev <-> m ∈ members r st /\ e = ev.
Proof.
  unfold emit_room. rewrite list_elem_of_fmap. split.
  - intros (x & Heq & Hx%elem_of_elements). by inversion Heq; subst.
  - intros [Hm ->]. exists m. by rewrite elem_of_elements.
Qed.

Lemma elem_of_emit_others s r st ev m e :
  (m, e) ∈ emit_others s r st ev <-> m ∈ members r st /\ m <> s /\ e = ev.
Proof.
  unfold emit_others. rewrite list_elem_of_fmap. split.
  - intros (x & Heq & Hx%elem_of_elements).
    inversion Heq; subst. set_solver.
  - intros (Hm & Hs & ->). exists m. rewrite elem_of_elements. set_solver.
Qed.

Lemma NoDup_emit_room r st ev : NoDup (emit_room r st ev).
Proof.
  unfold emit_room. apply NoDup_fmap_2; [|apply NoDup_elements].
  by intros x y [= ->].
Qed.

Lemma NoDup_emit_others s r st ev : NoDup (emit_others s r st ev).
Proof.
  unfold emit_others. apply NoDup_fmap_2; [|apply NoDup_elements].
  by intros x y [= ->].
Qed.

Lemma task_room_inj t1 t2 : task_room t1 = task_room t2 -> t1 = t2.
Proof. unfold task_room. apply (inj (String.app "task:")). Qed.

Lemma user_room_inj u1 u2 : user_room u1 = user_room u2 -> u1 = u2.
Proof. unfold user_room. apply (inj (String.app "user:")). Qed.

Lemma user_room_task_room u t : user_room u <> task_room t.
Proof. unfold user_room, task_room. intros H. cbv in H. discriminate H. Qed.

Lemma members_join s r st r' :
  members r' (join s r st) =
    if decide (r = r') then members r st ∪ {[s]} else members r' st.
Proof.
  unfold members, join. simpl. rewrite lookup_insert.
  by case_decide; subst.
Qed.

Lemma members_leave s r st r' :
  members r' (leave s r st) =
    if decide (r = r') then members r st ∖ {[s]} else members r' st.
Proof.
  unfold members at 1. unfold leave. simpl.
  destruct (decide (members r st ∖ {[s]} = ∅)) as [He|He].
  - rewrite lookup_delete. case_decide; subst; [by rewrite He|done].
  - rewrite lookup_insert. by case_decide; subst.
Qed.

Lemma members_leaveAll s st r :
  members r (leaveAll s st) = members r st ∖ {[s]}.
Proof.
  unfold members, leaveAll. simpl. rewrite map_lookup_filter, lookup_fmap.
  destruct (rooms st !! r) as [ms|]; simpl.
  - case_guard as Hg; simpl; [done|].
    by rewrite Hg.
  - set_solver.
Qed.

(** The join filter and [hasAccess] with ['view'] agree. *)
Lemma some_shared_true t u :
  some (fun sh => String.eqb (share_user sh) u) (task_sharedWith t) = true <->
  is_shared t u.
Proof.
  unfold some, is_shared. rewrite existsb_exists. split.
  - intros (a & Hin & Heq). exists a. split; [by apply list_elem_of_In|].
    by apply String.eqb_eq.
  - intros (a & Hin & Heq). exists a. split; [by apply list_elem_of_In|].
    by apply String.eqb_eq.
Qed.

Lemma related_true_iff u t : related u t = true <-> takes_part t u.
Proof.
  unfold related, takes_part. rewrite !orb_true_iff.
  rewrite String.eqb_eq, some_assignee_true, some_shared_true. tauto.
Qed.

Lemma related_hasAccess_view u t : related u t = hasAccess t u View.
Proof.
  destruct (related u t) eqn:Er, (hasAccess t u View) eqn:Eh; try done.
  - apply related_true_iff in Er. apply hasAccess_view_iff in Er. congruence.
  - apply hasAccess_view_iff in Eh. apply related_true_iff in Eh. congruence.
Qed.
(** ** Joining a task room *)

Lemma findOne_related_denied tasks taskId u :
  (forall t, tasks !! taskId = Some t -> hasAccess t u View = false) ->
  findOne_related (Some tasks) taskId u = Resolved None.
Proof.
  intros H. unfold findOne_related. destruct (tasks !! taskId) as [t|]; [|done].
  by rewrite related_hasAccess_view, (H t).
Qed.

(** C5: a join by a connection whose user is not the owner of the task, not
    one of its assignees and not in its share list is refused: the server
    state, and with it the membership of the task room, is what it was, and
    the one event written is an error to the requesting connection. *)
Theorem join_task_denied (tasks : gmap TaskId Task) (st : State) (s : SocketId)
    (user : SocketUser) (taskId : TaskId) (task : Task) :
  sockets st !! s = Some user ->
  tasks !! taskId = Some task ->
  task_owner task <> user_id user ->
  ~ is_assignee task (user_id user) ->
  ~ is_shared task (user_id user) ->
  exists st' out,
    step (Some tasks) st (Event s (JoinTask taskId)) = Some (st', out)
    /\ out = [(s, EvError "Access denied to task room")]
    /\ st' = st
    /\ members (task_room taskId) st' = members (task_room taskId) st
    /\ (forall m e, (m, e) ∈ out -> m = s).
Proof.
  intros Hs Ht Ho Ha Hsh.
  exists st, [(s, EvError "Access denied to task room")].
  split; [|split; [done|split; [done|split; [done|]]]].
  - simpl. rewrite Hs. simpl. unfold on_join_task.
    rewrite findOne_related_denied; [done|].
    intros t Ht'. rewrite Ht in Ht'. injection Ht' as <-.
    destruct (hasAccess task (user_id user) View) eqn:E; [|done].
    apply hasAccess_view_iff in E. tauto.
  - intros m e Hin. apply list_elem_of_singleton in Hin. by injection Hin.
Qed.

Lemma join_task_denied_witness :
  exists st' out,
    step (Some demo_tasks) (state_after demo_outsider) (Event "s5" (JoinTask "T1"))
      = Some (st', out)
    /\ out = [("s5", EvError "Access denied to task room")]
    /\ st' = state_after demo_outsider
    /\ members (task_room "T1") st'
       = members (task_room "T1") (state_after demo_outsider)
    /\ (forall m e, (m, e) ∈ out -> m = "s5").
Proof.
  apply (join_task_denied demo_tasks (state_after demo_outsider) "s5" cyd "T1"
           demo_task).
  - by vm_compute.
  - by vm_compute.
  - done.
  - by rewrite demo_task_assignee.
  - by rewrite demo_task_shared.
Defined.

(** ** Task updates *)

(** C8: an update published by a member of the task room whose user may
    edit the task is written once to every other member of that room and to
    no one else; a connection outside the room receives nothing, whatever
    other rooms it is in, and neither does the publisher. *)
Theorem task_update_fanout (tasks : gmap TaskId Task) (st : State) (s : SocketId)
    (user : SocketUser) (taskId : TaskId) (task : Task) (updates action : string) :
  sockets st !! s = Some user ->
  tasks !! taskId = Some task ->
  hasAccess task (user_id user) Edit = true ->
  s ∈ members (task_room taskId) st ->
  exists out,
    step (Some tasks) st (Event s (TaskUpdate taskId updates action)) = Some (st, out)
    /\ NoDup out
    /\ (forall m e,
          (m, e) ∈ out <->
          m ∈ members (task_room taskId) st /\ m <> s
          /\ e = EvTaskUpdated taskId updates action (user_id user) (userName user))
    /\ (forall r m e,
          r <> task_room taskId -> m ∈ members r st ->
          m ∉ members (task_room taskId) st -> (m, e) ∉ out)
    /\ (forall e, (s, e) ∉ out).
Proof.
  intros Hs Ht Ha Hm. eexists. split.
  { simpl. rewrite Hs. simpl. unfold on_task_update. simpl. by rewrite Ht, Ha. }
  split; [apply NoDup_emit_others|]. split; [|split].
  - intros m e. apply elem_of_emit_others.
  - intros r m e _ _ Hn Hin. apply elem_of_emit_others in Hin. tauto.
  - intros e Hin. apply elem_of_emit_others in Hin. tauto.
Qed.

Lemma task_update_fanout_witness :
  exists out,
    step (Some demo_tasks) (state_after demo_in_room)
         (Event "s1" (TaskUpdate "T1" "status" "edit"))
      = Some (state_after demo_in_room, out)
    /\ NoDup out
    /\ (forall m e,
          (m, e) ∈ out <->
          m ∈ members (task_room "T1") (state_after demo_in_room) /\ m <> "s1"
          /\ e = EvTaskUpdated "T1" "status" "edit" (user_id ann) (userName ann))
    /\ (forall r m e,
          r <> task_room "T1" -> m ∈ members r (state_after demo_in_room) ->
          m ∉ members (task_room "T1") (state_after demo_in_room) -> (m, e) ∉ out)
    /\ (forall e, (("s1" : SocketId), e) ∉ out).
Proof.
  apply (task_update_fanout demo_tasks (state_after demo_in_room) "s1" ann "T1"
           demo_task "status" "edit").
  - by vm_compute.
  - by vm_compute.
  - by vm_compute.
  - by vm_compute.
Defined.

(** ** Comments *)

(** C4, as specified, fails: Ann comments on the demo task from inside its
    room and the comment event is written to her own connection too. *)
Lemma comment_skips_sender_fails :
  ~ comment_skips_sender demo_db (state_after demo_in_room) "s1" "T1" "hello".
Proof.
  intros H.
  destruct (H ann (state_after demo_in_room)
              [("s1", EvTaskCommentNew "T1" "hello" "u1");
               ("s2", EvTaskCommentNew "T1" "hello" "u1")]) as [_ Hself].
  - by vm_compute.
  - by vm_compute.
  - by vm_compute.
  - apply (Hself (EvTaskCommentNew "T1" "hello" "u1")). by left.
Qed.

(** C4 (amended): a comment published by a connection whose user may view
    the task is written once to every member of the task room, the
    publishing connection included when it is a member. *)
Theorem task_comment_fanout (tasks : gmap TaskId Task) (st : State) (s : SocketId)
    (user : SocketUser) (taskId : TaskId) (task : Task) (content : string) :
  sockets st !! s = Some user ->
  tasks !! taskId = Some task ->
  hasAccess task (user_id user) View = true ->
  exists out,
    step (Some tasks) st (Event s (TaskComment taskId content)) = Some (st, out)
    /\ NoDup out
    /\ (forall m e,
          (m, e) ∈ out <->
          m ∈ members (task_room taskId) st
          /\ e = EvTaskCommentNew taskId content (user_id user))
    /\ (s ∈ members (task_room taskId) st ->
        (s, EvTaskCommentNew taskId content (user_id user)) ∈ out).
Proof.
  intros Hs Ht Ha. eexists. split.
  { simpl. rewrite Hs. simpl. unfold on_task_comment. simpl. by rewrite Ht, Ha. }
  split; [apply NoDup_emit_room|]. split.
  - intros m e. apply elem_of_emit_room.
  - intros Hm. by apply elem_of_emit_room.
Qed.

Lemma task_comment_fanout_witness :
  exists out,
    step (Some demo_tasks) (state_after demo_in_room)
         (Event "s1" (TaskComment "T1" "hello"))
      = Some (state_after demo_in_room, out)
    /\ NoDup out
    /\ (forall m e,
          (m, e) ∈ out <->
          m ∈ members (task_room "T1") (state_after demo_in_room)
          /\ e = EvTaskCommentNew "T1" "hello" (user_id ann))
    /\ ("s1" ∈ members (task_room "T1") (state_after demo_in_room) ->
        (("s1" : SocketId), EvTaskCommentNew "T1" "hello" (user_id ann)) ∈ out).
Proof.
  apply (task_comment_fanout demo_tasks (state_after demo_in_room) "s1" ann "T1"
           demo_task "hello").
  - by vm_compute.
  - by vm_compute.
  - by vm_compute.
Defined.

(** ** Typing indicators *)

(** The typing handler consults neither the store nor the room table of the
    sender. *)
Lemma on_task_typing_unchecked db st s user taskId isTyping :
  sockets st !! s = Some user ->
  step db st (Event s (TaskTyping taskId isTyping)) =
    Some (st, emit_others s (task_room taskId) st
                (EvTaskTypingStatus taskId (user_id user) (userName user) isTyping)).
Proof. intros Hs. simpl. by rewrite Hs. Qed.

(** C9 at its failing input: Cyd, who has no part in the demo task and is
    not in its room, sends a typing event for it, and the event is written
    to Bob's connection in the room. *)
Theorem typing_reaches_room_without_access :
  hasAccess demo_task (user_id cyd) View = false
  /\ ("s2" ∈ members (task_room "T1") (state_after demo_outsider))
  /\ ("s5" ∉ members (task_room "T1") (state_after demo_outsider))
  /\ (step demo_db (state_after demo_outsider) (Event "s5" (TaskTyping "T1" true))
      = Some (state_after demo_outsider,
              [("s2", EvTaskTypingStatus "T1" "u3" "Cyd Moe" true)])).
Proof.
  split; [by vm_compute|]. split; [by vm_compute|]. split.
  - intros H. by vm_compute in H.
  - by vm_compute.
Qed.

(** The reading of the specification fails there. *)
Lemma typing_access_checked_fails :
  ~ typing_access_checked demo_tasks (state_after demo_outsider) "s5" "T1" true.
Proof.
  intros H.
  apply (H cyd demo_task (state_after demo_outsider)
           [("s2", EvTaskTypingStatus "T1" "u3" "Cyd Moe" true)]
           ltac:(by vm_compute) ltac:(by vm_compute) ltac:(by vm_compute)
           ltac:(by vm_compute)
           "s2" (EvTaskTypingStatus "T1" "u3" "Cyd Moe" true)).
  - by vm_compute.
  - by left.
Qed.

(** ** Status changes *)

Lemma elem_of_notificationRecipients task u v :
  v ∈ notificationRecipients task u <-> takes_part task v /\ v <> u.
Proof.
  unfold notificationRecipients, takes_part.
  rewrite elem_of_List_filter.
  rewrite elem_of_cons, elem_of_app, !list_elem_of_fmap.
  rewrite negb_true_iff, String.eqb_neq.
  unfold is_assignee, is_shared. naive_solver.
Qed.

(** C10: an accepted status change is written to the other members of the
    task room and, as a notification, to every connection in the inbox room
    of the owner, of every assignee and of every user of the share list,
    the publishing user left out; notifications go nowhere else. *)
Theorem status_change_notifies (tasks : gmap TaskId Task) (st : State)
    (s : SocketId) (user : SocketUser) (taskId : TaskId) (task : Task)
    (fromStatus toStatus : string) :
  sockets st !! s = Some user ->
  tasks !! taskId = Some task ->
  hasAccess task (user_id user) Edit = true ->
  exists out,
    step (Some tasks) st (Event s (TaskStatusChange taskId fromStatus toStatus))
      = Some (st, out)
    /\ (forall m,
          m ∈ members (task_room taskId) st -> m <> s ->
          (m, EvTaskStatusChanged taskId fromStatus toStatus
                (user_id user) (userName user)) ∈ out)
    /\ (forall v m,
          takes_part task v -> v <> user_id user ->
          m ∈ members (user_room v) st ->
          (m, EvNotification (status_message (task_title task) toStatus) taskId
                (user_id user) (userName user)) ∈ out)
    /\ (forall m msg tid fromId fromName,
          (m, EvNotification msg tid fromId fromName) ∈ out ->
          exists v, takes_part task v /\ v <> user_id user
                    /\ m ∈ members (user_room v) st).
Proof.
  intros Hs Ht Ha. eexists. split.
  { simpl. rewrite Hs. simpl. unfold on_task_status_change. simpl.
    by rewrite Ht, Ha. }
  split; [|split].
  - intros m Hm Hne. apply elem_of_app. left. by apply elem_of_emit_others.
  - intros v m Hv Hne Hm. apply elem_of_app. right.
    apply list_elem_of_bind. exists v. split.
    + by apply elem_of_emit_room.
    + by apply elem_of_notificationRecipients.
  - intros m msg tid fromId fromName Hin. apply elem_of_app in Hin as [Hin|Hin].
    + apply elem_of_emit_others in Hin as (_ & _ & Hev). discriminate Hev.
    + apply list_elem_of_bind in Hin as (v & Hin & Hv).
      apply elem_of_emit_room in Hin as [Hm _].
      apply elem_of_notificationRecipients in Hv as [Hv Hne]. by exists v.
Qed.

Lemma status_change_notifies_witness :
  exists out,
    step (Some demo_tasks) (state_after demo_in_room)
         (Event "s2" (TaskStatusChange "T1" "todo" "review"))
      = Some (state_after demo_in_room, out)
    /\ (forall m,
          m ∈ members (task_room "T1") (state_after demo_in_room) -> m <> "s2" ->
          (m, EvTaskStatusChanged "T1" "todo" "review"
                (user_id bob) (userName bob)) ∈ out)
    /\ (forall v m,
          takes_part demo_task v -> v <> user_id bob ->
          m ∈ members (user_room v) (state_after demo_in_room) ->
          (m, EvNotification (status_message (task_title demo_task) "review") "T1"
                (user_id bob) (userName bob)) ∈ out)
    /\ (forall m msg tid fromId fromName,
          (m, EvNotification msg tid fromId fromName) ∈ out ->
          exists v, takes_part demo_task v /\ v <> user_id bob
                    /\ m ∈ members (user_room v) (state_after demo_in_room)).
Proof.
  apply (status_change_notifies demo_tasks (state_after demo_in_room) "s2" bob
           "T1" demo_task "todo" "review").
  - by vm_compute.
  - by vm_compute.
  - by vm_compute.
Defined.
(** ** Presence *)

Lemma elem_of_task_collaborators u t c :
  c ∈ task_collaborators u t <-> takes_part t c /\ c <> u.
Proof.
  unfold task_collaborators, takes_part.
  rewrite !elem_of_app, !elem_of_List_filter.
  rewrite !list_elem_of_fmap, !negb_true_iff, !String.eqb_neq.
  unfold is_assignee, is_shared.
  destruct (String.eqb_spec (task_owner t) u) as [Ho|Ho].
  - rewrite elem_of_nil. naive_solver.
  - rewrite list_elem_of_singleton. naive_solver.
Qed.

Lemma elem_of_collaboratorsOf tasks u c :
  c ∈ collaboratorsOf tasks u <->
  c <> u /\ exists taskId t,
    tasks !! taskId = Some t /\ takes_part t u /\ takes_part t c.
Proof.
  unfold collaboratorsOf, collaborators.
  rewrite elem_of_list_to_set, list_elem_of_bind. split.
  - intros (t & Hc & Ht). apply elem_of_task_collaborators in Hc as [Hc Hne].
    apply list_elem_of_filter in Ht as [Hr Ht].
    apply list_elem_of_fmap in Ht as ([taskId t'] & -> & Ht).
    apply elem_of_map_to_list in Ht. apply related_true_iff in Hr.
    split; [done|]. by exists taskId, t'.
  - intros (Hne & taskId & t & Ht & Hu & Hc). exists t. split.
    + by apply elem_of_task_collaborators.
    + apply list_elem_of_filter. split; [by apply related_true_iff|].
      apply list_elem_of_fmap. exists (taskId, t). split; [done|].
      by apply elem_of_map_to_list.
Qed.

Lemma elem_of_broadcastUserStatus tasks st u status m e :
  (m, e) ∈ broadcastUserStatus (Some tasks) st u status <->
  exists c, c ∈ collaboratorsOf tasks u /\ m ∈ members (user_room c) st
            /\ e = EvUserStatus u status.
Proof.
  unfold broadcastUserStatus, find_related. rewrite list_elem_of_bind.
  fold (collaboratorsOf tasks u). split.
  - intros (c & Hin & Hc). apply elem_of_elements in Hc.
    apply elem_of_emit_room in Hin as [Hm ->]. by exists c.
  - intros (c & Hc & Hm & ->). exists c. split.
    + by apply elem_of_emit_room.
    + by apply elem_of_elements.
Qed.

(** C2, as specified, fails: Ann and Bob collaborate on the demo task and
    both are connected.  Ann's second connection is announced to Bob as
    online, and closing it while her first one stays open is announced to
    him as offline. *)
Lemma presence_boundary_fails :
  ~ second_connection_silent demo_db (state_after demo_connected) "s3" ann
  /\ ~ first_disconnect_silent demo_db (state_after demo_two_tabs) "s3".
Proof.
  split.
  - intros H. unfold second_connection_silent in H.
    eapply (fun Hsz st' out Hst => H Hsz st' out Hst "s2").
    + by vm_compute.
    + vm_compute. reflexivity.
    + right. left.
  - intros H. unfold first_disconnect_silent in H.
    eapply (fun Hs Hsz st' out Hst => H ann Hs Hsz st' out Hst "s2").
    + by vm_compute.
    + by vm_compute.
    + vm_compute. reflexivity.
    + left.
Qed.

(** C2 (amended): every connection that is registered announces its user as
    online to all connections in the inbox rooms of the user's
    collaborators, and every disconnect announces the user as offline to
    them, whatever the number of other connections the user has (the store
    answering the query). *)
Theorem presence_on_every_connection (tasks : gmap TaskId Task) (st : State)
    (s : SocketId) (user : SocketUser) :
  (sockets st !! s = None ->
   exists st' out,
     step (Some tasks) st (Connect s user) = Some (st', out)
     /\ forall c m,
          c ∈ collaboratorsOf tasks (user_id user) ->
          m ∈ members (user_room c) st' ->
          (m, EvUserStatus (user_id user) Online) ∈ out)
  /\ (sockets st !! s = Some user ->
      exists st' out,
        step (Some tasks) st (Disconnect s) = Some (st', out)
        /\ forall c m,
             c ∈ collaboratorsOf tasks (user_id user) ->
             m ∈ members (user_room c) st' ->
             (m, EvUserStatus (user_id user) Offline) ∈ out).
Proof.
  split; intros Hs.
  - eexists _, _. split.
    { simpl. rewrite Hs. unfold on_connection. reflexivity. }
    intros c m Hc Hm. apply elem_of_app. right.
    apply elem_of_broadcastUserStatus. by exists c.
  - eexists _, _. split.
    { simpl. rewrite Hs. unfold on_disconnect. reflexivity. }
    intros c m Hc Hm. apply elem_of_app. left.
    apply elem_of_broadcastUserStatus. by exists c.
Qed.

Lemma demo_collaborators_ann : "u2" ∈ collaboratorsOf demo_tasks "u1".
Proof. by vm_compute. Qed.

Lemma presence_on_every_connection_witness :
  (exists st' out,
     step demo_db (state_after demo_connected) (Connect "s3" ann) = Some (st', out)
     /\ forall c m,
          c ∈ collaboratorsOf demo_tasks "u1" ->
          m ∈ members (user_room c) st' ->
          (m, EvUserStatus "u1" Online) ∈ out)
  /\ (exists st' out,
        step demo_db (state_after demo_two_tabs) (Disconnect "s3") = Some (st', out)
        /\ forall c m,
             c ∈ collaboratorsOf demo_tasks "u1" ->
             m ∈ members (user_room c) st' ->
             (m, EvUserStatus "u1" Offline) ∈ out).
Proof.
  split.
  - apply (presence_on_every_connection demo_tasks (state_after demo_connected)
             "s3" ann).
    by vm_compute.
  - apply (presence_on_every_connection demo_tasks (state_after demo_two_tabs)
             "s3" ann).
    by vm_compute.
Defined.
(** ** The registry and the rooms *)

Lemma registered_iff s st :
  registered s st <->
  exists u e, connectedUsers st !! u = Some e /\ conn_socketId e = s.
Proof.
  unfold registered, registry_sockets. rewrite list_elem_of_fmap. split.
  - intros ([u e] & -> & Hin). apply elem_of_map_to_list in Hin. by exists u, e.
  - intros (u & e & Hl & <-). exists (u, e). split; [done|].
    by apply elem_of_map_to_list.
Qed.

Lemma connectionsOf_empty u st :
  connectionsOf u st = ∅ <->
  forall s user, sockets st !! s = Some user -> user_id user <> u.
Proof.
  unfold connectionsOf. rewrite dom_empty_iff_L, map_empty_filter.
  unfold map_Forall. simpl. done.
Qed.

(** Keeps the state component of a step equation. *)
Ltac step_state H :=
  apply (f_equal (fmap fst)) in H;
  unfold on_connection, on_disconnect in H; simpl in H;
  injection H as H; subst.

(** What an input does to the state. *)
Lemma on_event_state db st s user ev :
  let st' := (on_event db st s user ev).1 in
  st' = st \/ (exists t, st' = join s (task_room t) st)
  \/ (exists t, st' = leave s (task_room t) st).
Proof.
  destruct ev; simpl; try by left.
  - unfold on_join_task. destruct (findOne_related _ _ _) as [[?|]|]; simpl;
      [right; left; by eexists | by left | by left].
  - right. right. by eexists.
  - unfold on_task_update. destruct (findById _ _) as [[?|]|]; simpl;
      [destruct (hasAccess _ _ _)|..]; by left.
  - unfold on_task_comment. destruct (findById _ _) as [[?|]|]; simpl;
      [destruct (hasAccess _ _ _)|..]; by left.
  - unfold on_task_status_change. destruct (findById _ _) as [[?|]|]; simpl;
      [destruct (hasAccess _ _ _)|..]; by left.
  - unfold on_collaboration_invite. destruct (findById _ _) as [[?|]|]; simpl;
      [destruct (hasAccess _ _ _)|..]; by left.
  - unfold on_user_activity. destruct metadataTaskId; [|by left].
    destruct (_ && _); by left.
Qed.

Lemma step_rooms_live db st i st' out :
  step db st i = Some (st', out) -> rooms_live st -> rooms_live st'.
Proof.
  unfold rooms_live. intros Hstep Hinv r m.
  destruct i as [s user | s ev | s]; simpl in Hstep.
  - destruct (sockets st !! s) eqn:Hs; [done|].
    step_state Hstep. simpl. rewrite members_join.
    case_decide; simpl.
    + rewrite elem_of_union, elem_of_singleton. intros [Hm | ->].
      * rewrite lookup_insert. case_decide; [done|]. by eapply Hinv.
      * by rewrite lookup_insert_eq.
    + intros Hm. rewrite lookup_insert. case_decide; [done|]. by eapply Hinv.
  - destruct (sockets st !! s) as [user|] eqn:Hs; [|done].
    step_state Hstep.
    destruct (on_event_state db st s user ev) as [-> | [[t ->] | [t ->]]].
    + apply Hinv.
    + rewrite members_join. case_decide; simpl; [|apply Hinv].
      rewrite elem_of_union, elem_of_singleton. intros [Hm | ->];
        [by eapply Hinv | by rewrite Hs].
    + rewrite members_leave. case_decide; simpl; [|apply Hinv].
      rewrite elem_of_difference. intros [Hm _]. by eapply Hinv.
  - destruct (sockets st !! s) as [user|] eqn:Hs; [|done].
    step_state Hstep. simpl.
    change (members r _) with (members r (leaveAll s st)).
    rewrite members_leaveAll, elem_of_difference, elem_of_singleton.
    intros [Hm Hne]. rewrite lookup_delete_ne by done. by eapply Hinv.
Qed.

Lemma step_sockets_registered db st i st' out :
  step db st i = Some (st', out) -> single_session st i ->
  sockets_registered st -> sockets_registered st'.
Proof.
  unfold sockets_registered. intros Hstep Hok Hinv s0 user0.
  destruct i as [s user | s ev | s]; simpl in Hstep.
  - destruct (sockets st !! s) eqn:Hs; [done|].
    step_state Hstep. simpl. simpl in Hok.
    rewrite lookup_insert. case_decide as Heq.
    + intros [= <-]. subst s0. by rewrite lookup_insert_eq.
    + intros Hs0. rewrite lookup_insert_ne; [by apply Hinv|].
      intros Hu. by eapply connectionsOf_empty.
  - destruct (sockets st !! s) as [user|] eqn:Hs; [|done].
    step_state Hstep.
    destruct (on_event_state db st s user ev) as [-> | [[t ->] | [t ->]]];
      simpl; apply Hinv.
  - destruct (sockets st !! s) as [user|] eqn:Hs; [|done].
    step_state Hstep. simpl.
    rewrite lookup_delete. case_decide as Heq; [done|]. intros Hs0.
    rewrite lookup_delete_ne; [by apply Hinv|].
    intros Hu. apply Hinv in Hs, Hs0. rewrite Hu, Hs0 in Hs.
    by injection Hs.
Qed.

Lemma reachable_rooms_live ok st : reachable_by ok st -> rooms_live st.
Proof.
  induction 1 as [|db st i st' out _ IH _ Hstep].
  - intros r m. unfold members. simpl. rewrite lookup_empty. set_solver.
  - by eapply step_rooms_live.
Qed.

Lemma reachable_sockets_registered st :
  reachable_by single_session st -> sockets_registered st.
Proof.
  induction 1 as [|db st i st' out _ IH Hok Hstep].
  - intros s user. simpl. by rewrite lookup_empty.
  - by eapply step_sockets_registered.
Qed.

Lemma run_reachable st tr st' :
  reachable st -> run st tr = Some st' -> reachable st'.
Proof.
  revert st. induction tr as [|[db i] tr IH]; intros st Hr; simpl.
  - by intros [= <-].
  - destruct (step db st i) as [[st1 out]|] eqn:Hstep; [|done].
    apply IH. by eapply reach_step.
Qed.

Lemma reachable_state_after tr : reachable (state_after tr).
Proof.
  unfold state_after. destruct (run init tr) as [st|] eqn:Hrun; simpl.
  - eapply run_reachable; [|done]. constructor.
  - constructor.
Qed.

Lemma run_single_reachable st tr st' :
  reachable_by single_session st -> run_single st tr = Some st' ->
  reachable_by single_session st'.
Proof.
  revert st. induction tr as [|[db i] tr IH]; intros st Hr; simpl.
  - by intros [= <-].
  - case_bool_decide as Hok; [|done].
    destruct (step db st i) as [[st1 out]|] eqn:Hstep; [|done].
    apply IH. by eapply reach_step.
Qed.

(** The loop over [socket.rooms] in the disconnect handler finds no room:
    the socket has left them all by then. *)
Lemma socket_rooms_close s st : socket_rooms s (close s st) = [].
Proof.
  unfold socket_rooms, close, leaveAll. simpl.
  rewrite (proj2 (map_empty_filter _ _)); [by rewrite map_to_list_empty|].
  intros r ms Hl. simpl.
  apply map_lookup_filter_Some in Hl as [Hl _].
  rewrite lookup_fmap in Hl. destruct (rooms st !! r); [|done].
  injection Hl as <-. set_solver.
Qed.

(** C3, as specified, fails.  After Ann's second connection her first one
    is still in her inbox room and no longer in the registry; after the
    second one is closed again the first is still in the room and the
    registry has no entry for Ann at all. *)
Lemma rooms_registered_fails :
  (reachable (state_after demo_two_tabs)
   /\ ~ rooms_registered (state_after demo_two_tabs))
  /\ (reachable (state_after demo_tab_closed)
      /\ ~ rooms_registered (state_after demo_tab_closed)).
Proof.
  split; (split; [apply reachable_state_after|]); intros H.
  - assert (Hr : registered "s1" (state_after demo_two_tabs)).
    { apply (H (user_room "u1")). by vm_compute. }
    apply (bool_decide_pack _) in Hr. by vm_compute in Hr.
  - assert (Hr : registered "s1" (state_after demo_tab_closed)).
    { apply (H (user_room "u1")). by vm_compute. }
    apply (bool_decide_pack _) in Hr. by vm_compute in Hr.
Qed.

(** C3 (amended): in every state reached while no user holds two
    connections at once, every connection in the membership of any room is
    present in the registry. *)
Theorem rooms_registered_single_session (st : State) :
  reachable_by single_session st -> rooms_registered st.
Proof.
  intros Hr r m Hm.
  destruct (reachable_rooms_live _ _ Hr r m Hm) as [user Hs].
  apply reachable_sockets_registered in Hr. apply Hr in Hs.
  apply registered_iff. by eexists _, _.
Qed.

Lemma rooms_registered_single_session_witness :
  rooms_registered (state_after demo_in_room).
Proof.
  apply rooms_registered_single_session.
  apply (run_single_reachable init demo_in_room); [constructor|].
  by vm_compute.
Defined.
(** ** Deleting a task *)

(** C6, as specified, fails: Ann deletes the demo task while Bob's
    connection is in its room; the delete succeeds, no event is written to
    Bob, and the room keeps its members. *)
Lemma delete_fans_out_fails :
  ~ delete_fans_out demo_server (Some "u1") "T1".
Proof.
  intros H.
  destruct (H (mkServer (delete "T1" demo_tasks) (state_after demo_in_room)) []
              (mkResponse 200 "Task deleted successfully")) as [Hall _].
  - by vm_compute.
  - done.
  - destruct (Hall "s2") as [e He]; [by vm_compute|]. by apply elem_of_nil in He.
Qed.

(** C6 (amended): a delete request writes no event to any connection and
    leaves the socket state, and so the membership of every room, as it
    was; after a successful delete the task is gone from the store and a
    later join of its room by any connection is refused. *)
Theorem delete_route_silent (srv : Server) (reqUser : option UserId)
    (taskId : TaskId) :
  exists srv' response,
    serve srv (HttpDelete reqUser taskId) = Some (srv', [], Some response)
    /\ io srv' = io srv
    /\ (forall r, members r (io srv') = members r (io srv))
    /\ (http_status response = 200 ->
        store srv' !! taskId = None
        /\ forall s user,
             sockets (io srv') !! s = Some user ->
             serve srv' (Socket (Event s (JoinTask taskId)))
             = Some (srv', [(s, EvError "Access denied to task room")], None)).
Proof.
  unfold serve.
  destruct (router_delete (store srv) reqUser taskId) as [tasks' response] eqn:Hd.
  exists (mkServer tasks' (io srv)), response.
  split; [done|]. split; [done|]. split; [done|].
  intros H200. simpl.
  assert (Hgone : tasks' !! taskId = None).
  { unfold router_delete, checkTaskAccess in Hd.
    destruct reqUser as [userId|]; simpl in Hd.
    - destruct (store srv !! taskId) as [task|]; simpl in Hd.
      + destruct (hasAccess task userId Admin); simpl in Hd.
        * destruct (task_subtasks task); injection Hd as <- <-;
            [apply lookup_delete_eq | done].
        * by injection Hd as <- <-.
      + by injection Hd as <- <-.
    - by injection Hd as <- <-. }
  split; [done|]. intros s user Hs. rewrite Hs. simpl.
  unfold on_join_task, findOne_related. rewrite Hgone. simpl.
  by destruct srv.
Qed.
(** ** More on the access policy *)

Lemma hasAccess_downward t u p p' :
  rank p' <= rank p -> hasAccess t u p = true -> hasAccess t u p' = true.
Proof.
  intros Hrank H.
  destruct (decide (task_owner t = u)) as [Ho|Ho]; [by apply hasAccess_owner|].
  destruct (some (fun a => String.eqb (assignee_user a) u) (task_assignees t))
    eqn:Ea.
  { apply hasAccess_assignee. by apply some_assignee_true. }
  apply some_assignee_false in Ea.
  rewrite hasAccess_shared in H |- * by done.
  destruct (find _ _) as [sh|]; [|done].
  apply bool_decide_eq_true in H. apply bool_decide_eq_true. lia.
Qed.

(** X1: the permissions are downward closed: who is granted a permission
    is granted every permission of lower rank. *)
Theorem hasAccess_monotone (t : Task) (u : UserId) (p p' : Permission) :
  rank p' <= rank p -> hasAccess t u p = true -> hasAccess t u p' = true.
Proof. apply hasAccess_downward. Qed.

Lemma hasAccess_monotone_witness : hasAccess demo_task "u4" View = true.
Proof.
  apply (hasAccess_monotone demo_task "u4" Edit View).
  - simpl. lia.
  - by vm_compute.
Defined.

(** X2: the filter of the join query and of the presence query selects the
    tasks on which [hasAccess] grants view: the join lookup returns the
    stored task exactly when [hasAccess] grants view on it, and the presence
    query returns exactly the stored tasks that do. *)
Theorem join_filter_is_view_access (db : Db) (tasks : gmap TaskId Task)
    (taskId : TaskId) (u : UserId) (t : Task) :
  findOne_related db taskId u =
    match findById db taskId with
    | Resolved (Some t) => Resolved (if hasAccess t u View then Some t else None)
    | r => r
    end
  /\ (exists ts,
        find_related (Some tasks) u = Resolved ts
        /\ (t ∈ ts <->
            hasAccess t u View = true /\ exists tid, tasks !! tid = Some t)).
Proof.
  split.
  - destruct db as [tasks0|]; simpl; [|done].
    destruct (tasks0 !! taskId) as [t0|]; [|done].
    by rewrite related_hasAccess_view.
  - simpl. eexists. split; [done|].
    rewrite list_elem_of_filter, related_hasAccess_view.
    rewrite list_elem_of_fmap. split.
    + intros [Ha ([tid t'] & -> & Hin)]. split; [done|].
      exists tid. by apply elem_of_map_to_list.
    + intros [Ha [tid Hl]]. split; [done|]. exists (tid, t).
      split; [done|]. by apply elem_of_map_to_list.
Qed.

(** X3: a request that passes [checkOwnership] passes [checkTaskAccess] for
    every permission, and a request that passes [checkTaskAccess] for a
    permission passes it for every lower one; the task handed on is the
    same. *)
Theorem checkTaskAccess_weaker (db : Db) (reqUser : option UserId)
    (taskId : TaskId) (t : Task) :
  (checkOwnership db reqUser taskId = inr t ->
   forall p, checkTaskAccess p db reqUser taskId = inr t)
  /\ (forall p p',
        rank p' <= rank p ->
        checkTaskAccess p db reqUser taskId = inr t ->
        checkTaskAccess p' db reqUser taskId = inr t).
Proof.
  split.
  - unfold checkOwnership, checkTaskAccess.
    destruct reqUser as [userId|]; [|done].
    destruct (findById db taskId) as [[task|]|]; try done.
    destruct (String.eqb_spec (task_owner task) userId) as [Ho|Ho]; [|done].
    intros [= ->] p. by rewrite hasAccess_owner.
  - intros p p' Hrank. unfold checkTaskAccess.
    destruct reqUser as [userId|]; [|done].
    destruct (findById db taskId) as [[task|]|]; try done.
    destruct (hasAccess task userId p) eqn:Ha; [|done].
    intros [= ->]. by rewrite (hasAccess_downward _ _ _ _ Hrank Ha).
Qed.

Lemma checkTaskAccess_weaker_witness :
  checkTaskAccess Admin demo_db (Some "u1") "T1" = inr demo_task
  /\ checkTaskAccess View demo_db (Some "u4") "T1" = inr demo_task.
Proof.
  split.
  - apply (checkTaskAccess_weaker demo_db (Some "u1") "T1" demo_task).
    by vm_compute.
  - apply (checkTaskAccess_weaker demo_db (Some "u4") "T1" demo_task) with Edit.
    + simpl. lia.
    + by vm_compute.
Defined.
(** ** The delete and share routes *)

Lemma checkTaskAccess_inr p db reqUser taskId t :
  checkTaskAccess p db reqUser taskId = inr t <->
  exists userId, reqUser = Some userId /\ findById db taskId = Resolved (Some t)
                 /\ hasAccess t userId p = true.
Proof.
  unfold checkTaskAccess. split.
  - destruct reqUser as [userId|]; [|done].
    destruct (findById db taskId) as [[task|]|]; try done.
    destruct (hasAccess task userId p) eqn:Ha; [|done].
    intros [= ->]. by exists userId.
  - intros (userId & -> & -> & ->). done.
Qed.


(** *** Sharing *)

Lemma find_user_None (l : list Share) u :
  find (fun sh => String.eqb (share_user sh) u) l = None <->
  u ∉ share_user <$> l.
Proof.
  unfold find. induction l as [|sh l IH]; simpl.
  - split; [|done]. intros _. apply not_elem_of_nil.
  - rewrite not_elem_of_cons.
    destruct (String.eqb_spec (share_user sh) u) as [He|He]; [|naive_solver].
    split; [done|]. by intros [Hne _].
Qed.

Lemma first_permission_None l u :
  first_permission l u = None <-> u ∉ share_user <$> l.
Proof.
  unfold first_permission. rewrite <- find_user_None.
  destruct (find _ _); naive_solver.
Qed.

Lemma first_permission_cons sh l u :
  first_permission (sh :: l) u =
    if String.eqb (share_user sh) u then Some (share_permission sh)
    else first_permission l u.
Proof.
  unfold first_permission, find. simpl. by destruct (String.eqb _ _).
Qed.

Lemma first_permission_set_permission v p l u :
  first_permission (set_permission v p l) u =
    if String.eqb v u then (fun _ => p) <$> first_permission l u
    else first_permission l u.
Proof.
  induction l as [|sh l IH]; simpl.
  - unfold first_permission. simpl. by destruct (String.eqb v u).
  - destruct (String.eqb_spec (share_user sh) v) as [Hv|Hv].
    + rewrite !first_permission_cons. simpl. subst v.
      by destruct (String.eqb (share_user sh) u).
    + rewrite !first_permission_cons, IH.
      destruct (String.eqb_spec (share_user sh) u) as [Hu|Hu]; [|done].
      subst u. by rewrite (proj2 (String.eqb_neq _ _)) by done.
Qed.

Lemma first_permission_app l sh u :
  first_permission (l ++ [sh]) u =
    match first_permission l u with
    | Some q => Some q
    | None => if String.eqb (share_user sh) u then Some (share_permission sh)
              else None
    end.
Proof.
  induction l as [|sh' l IH]; simpl.
  - unfold first_permission, find. simpl. by destruct (String.eqb _ _).
  - rewrite !first_permission_cons, IH.
    by destruct (String.eqb (share_user sh') u).
Qed.

(** [hasAccess] reads the share list through the first entry of the user
    only. *)
Lemma hasAccess_first_permission t u req :
  hasAccess t u req =
    String.eqb (task_owner t) u
    || some (fun a => String.eqb (assignee_user a) u) (task_assignees t)
    || match first_permission (task_sharedWith t) u with
       | None => false
       | Some p => bool_decide (rank req <= rank p)
       end.
Proof.
  unfold hasAccess, first_permission.
  destruct (String.eqb _ _); [done|]. destruct (some _ _); [done|].
  cbn [orb]. destruct (find _ _) as [sh|]; [|done].
  cbn [fmap option_fmap option_map].
  rewrite !indexOf_permissions, Z.geb_leb.
  destruct (bool_decide_reflect (rank req <= rank (share_permission sh)));
    [apply Z.leb_le | apply Z.leb_gt]; lia.
Qed.

Lemma share_user_set_permission v p l :
  share_user <$> set_permission v p l = share_user <$> l.
Proof.
  induction l as [|sh l IH]; simpl; [done|].
  destruct (String.eqb _ _); simpl; [done|]. f_equal. apply IH.
Qed.

Lemma first_permission_Some_elem l u q :
  first_permission l u = Some q -> exists sh, sh ∈ l /\ share_user sh = u.
Proof.
  unfold first_permission, find. destruct (List.find _ l) as [sh|] eqn:Ef; [|done].
  intros _. apply find_some in Ef as [Hin Heq]. exists sh.
  split; [by apply list_elem_of_In | by apply String.eqb_eq].
Qed.

Lemma is_shared_first_permission t u :
  is_shared t u <-> first_permission (task_sharedWith t) u <> None.
Proof.
  rewrite first_permission_None. unfold is_shared.
  rewrite list_elem_of_fmap. split.
  - intros (sh & Hin & <-) Hn. apply Hn. by exists sh.
  - intros Hn. destruct (decide (u ∈ share_user <$> task_sharedWith t)) as [Hin|Hin].
    + apply list_elem_of_fmap in Hin as (sh & -> & Hin). by exists sh.
    + exfalso. apply Hn. intros (sh & -> & Hin'). apply Hin.
      apply list_elem_of_fmap. by exists sh.
Qed.

(** One round of the share loop, read through the first entries. *)
Lemma share_with_spec cast sharedBy p l u l' :
  cast_idempotent cast -> shares_canonical cast l ->
  share_with cast sharedBy p l u = Some l' ->
  shares_canonical cast l' /\ is_Some (cast u)
  /\ forall v,
       first_permission l' v =
         match first_permission l v with
         | Some q => if bool_decide (v = u) then Some p else Some q
         | None => if bool_decide (cast u = Some v) then Some p else None
         end.
Proof.
  intros Hid Hcan. unfold share_with.
  destruct (find _ l) as [sh|] eqn:Ef.
  - intros [= <-].
    assert (Hsh : sh ∈ l /\ share_user sh = u).
    { unfold find in Ef. apply find_some in Ef as [Hin Heq].
      split; [by apply list_elem_of_In | by apply String.eqb_eq]. }
    destruct Hsh as [Hin Hu].
    assert (Hcu : cast u = Some u) by (rewrite <- Hu; by apply Hcan).
    split; [|split; [by rewrite Hcu|]].
    + intros sh' Hin'.
      assert (Hx : share_user sh' ∈ share_user <$> l).
      { rewrite <- (share_user_set_permission u p l).
        apply list_elem_of_fmap. by exists sh'. }
      apply list_elem_of_fmap in Hx as (sh0 & -> & Hin0). by apply Hcan.
    + intros v. rewrite first_permission_set_permission.
      destruct (String.eqb_spec u v) as [<-|Hne].
      * unfold first_permission. rewrite Ef. simpl.
        by rewrite bool_decide_eq_true_2.
      * destruct (first_permission l v).
        -- by rewrite bool_decide_eq_false_2 by congruence.
        -- by rewrite bool_decide_eq_false_2 by congruence.
  - destruct (cast u) as [c|] eqn:Hc; [|done]. intros [= <-].
    apply find_user_None in Ef.
    split; [|split; [done|]].
    + intros sh' Hin'. apply elem_of_app in Hin' as [Hin'|Hin'].
      * by apply Hcan.
      * apply list_elem_of_singleton in Hin' as ->. simpl. by eapply Hid.
    + intros v. rewrite first_permission_app. simpl.
      destruct (first_permission l v) as [q|] eqn:Hv.
      * rewrite bool_decide_eq_false_2; [done|]. intros ->.
        apply first_permission_Some_elem in Hv as (sh0 & Hin0 & Hu0).
        apply Ef. apply list_elem_of_fmap. by exists sh0.
      * destruct (String.eqb_spec c v) as [->|Hne].
        -- by rewrite bool_decide_eq_true_2.
        -- by rewrite bool_decide_eq_false_2 by congruence.
Qed.

(** The whole loop, read through the first entries. *)
Lemma share_each_spec cast sharedBy p userIds l l' :
  cast_idempotent cast -> shares_canonical cast l ->
  share_each cast sharedBy p l userIds = Some l' ->
  shares_canonical cast l'
  /\ (forall u, u ∈ userIds -> is_Some (cast u))
  /\ forall v,
       first_permission l' v =
         match first_permission l v with
         | Some q => if bool_decide (v ∈ userIds) then Some p else Some q
         | None => if bool_decide (Some v ∈ cast <$> userIds) then Some p else None
         end.
Proof.
  intros Hid. revert l.
  induction userIds as [|u rest IH]; intros l Hcan; cbn [share_each].
  - intros [= <-]. split; [done|]. split.
    + intros u Hu. by apply elem_of_nil in Hu.
    + intros v. destruct (first_permission l v).
      * by rewrite bool_decide_eq_false_2 by apply not_elem_of_nil.
      * by rewrite bool_decide_eq_false_2 by apply not_elem_of_nil.
  - destruct (share_with cast sharedBy p l u) as [l1|] eqn:Hstep; [|done].
    intros Hrest.
    destruct (share_with_spec _ _ _ _ _ _ Hid Hcan Hstep) as (Hcan1 & Hcu & H1).
    destruct (IH _ Hcan1 Hrest) as (Hcan' & Hcast & H').
    split; [done|]. split.
    + intros u' Hu'. apply elem_of_cons in Hu' as [->|Hu']; [done|by apply Hcast].
    + intros v. rewrite H', H1, fmap_cons.
      destruct (first_permission l v) as [q|].
      * destruct (decide (v = u)) as [->|Hne].
        -- rewrite (bool_decide_eq_true_2 (u = u)) by done.
           rewrite (bool_decide_eq_true_2 (u ∈ u :: rest)) by left.
           by case_bool_decide.
        -- rewrite (bool_decide_eq_false_2 (v = u)) by done.
           destruct (decide (v ∈ rest)) as [Hin|Hin].
           ++ rewrite !bool_decide_eq_true_2; [done|by right|done].
           ++ rewrite !bool_decide_eq_false_2; [done| |done].
              rewrite not_elem_of_cons. naive_solver.
      * destruct (decide (cast u = Some v)) as [Hc|Hc].
        -- rewrite (bool_decide_eq_true_2 (cast u = Some v)) by done.
           rewrite (bool_decide_eq_true_2 (Some v ∈ cast u :: (cast <$> rest)))
             by (rewrite Hc; left).
           by case_bool_decide.
        -- rewrite (bool_decide_eq_false_2 (cast u = Some v)) by done.
           destruct (decide (Some v ∈ cast <$> rest)) as [Hin|Hin].
           ++ rewrite !bool_decide_eq_true_2; [done|by right|done].
           ++ rewrite !bool_decide_eq_false_2; [done| |done].
              rewrite not_elem_of_cons. naive_solver.
Qed.

Lemma share_each_NoDup cast sharedBy p userIds l l' :
  (forall u, u ∈ userIds -> cast u = Some u) ->
  NoDup (share_user <$> l) ->
  share_each cast sharedBy p l userIds = Some l' ->
  NoDup (share_user <$> l').
Proof.
  revert l. induction userIds as [|u rest IH]; intros l Hcan Hnd; simpl.
  - by intros [= <-].
  - unfold share_with. destruct (find _ l) as [sh|] eqn:Ef.
    + apply IH.
      * intros u' Hu'. apply Hcan. by right.
      * by rewrite share_user_set_permission.
    + rewrite (Hcan u) by left. apply IH.
      * intros u' Hu'. apply Hcan. by right.
      * apply find_user_None in Ef. rewrite fmap_app. simpl.
        apply NoDup_app. split; [done|]. split.
        -- intros x Hx Hv. apply list_elem_of_singleton in Hv. by subst.
        -- apply NoDup_singleton.
Qed.

(** What a share request that is answered with 200 did. *)
Lemma router_share_200 cast tasks reqUser taskId userIds permission
    tasks' response :
  router_share cast tasks reqUser taskId userIds permission
    = (tasks', response) ->
  http_status response = 200 ->
  exists id sharedBy task p sharedWith',
    cast taskId = Some id /\ reqUser = Some sharedBy
    /\ tasks !! id = Some task
    /\ hasAccess task sharedBy Admin = true
    /\ parse_permission permission = Some p
    /\ share_each cast sharedBy p (task_sharedWith task) userIds = Some sharedWith'
    /\ tasks' =
       <[id :=
           mkTask (task_title task) (task_owner task) (task_assignees task)
             sharedWith' (task_subtasks task)]> tasks.
Proof.
  unfold router_share. intros Hr H200.
  destruct (cast taskId) as [id|]; [|by simplify_eq].
  destruct (checkTaskAccess Admin (Some tasks) reqUser id) as [r|task] eqn:Hc.
  - injection Hr as <- <-. exfalso.
    unfold checkTaskAccess in Hc. destruct reqUser as [userId|].
    + destruct (findById _ _) as [[task|]|]; simpl in Hc.
      * destruct (hasAccess task userId Admin); by simplify_eq.
      * by simplify_eq.
      * by simplify_eq.
    + by simplify_eq.
  - apply checkTaskAccess_inr in Hc as (userId & -> & Hf & Ha).
    simpl in Hf. injection Hf as Hl.
    destruct (parse_permission permission) as [p|]; [|by simplify_eq].
    destruct (share_each _ _ _ _ _) as [sharedWith'|] eqn:He; [|by simplify_eq].
    injection Hr as <- <-. by exists id, userId, task, p, sharedWith'.
Qed.

Lemma router_share_not_200 cast tasks reqUser taskId userIds permission
    tasks' response :
  router_share cast tasks reqUser taskId userIds permission
    = (tasks', response) ->
  http_status response <> 200 -> tasks' = tasks.
Proof.
  unfold router_share. intros Hr Hn.
  destruct (cast taskId) as [id|]; [|by simplify_eq].
  destruct (checkTaskAccess _ _ _ _) as [r|task]; [by simplify_eq|].
  destruct reqUser as [sharedBy|]; [|by simplify_eq].
  destruct (parse_permission permission) as [p|]; [|by simplify_eq].
  destruct (share_each _ _ _ _ _); by simplify_eq.
Qed.

Lemma demo_cast_idempotent : cast_idempotent demo_cast.
Proof.
  intros u c. unfold demo_cast.
  destruct (String.eqb_spec u "U3") as [->|H1]; [by intros [= <-]|].
  destruct (String.eqb_spec u "zz") as [->|H2]; [done|].
  intros [= <-].
  by rewrite (proj2 (String.eqb_neq _ _) H1), (proj2 (String.eqb_neq _ _) H2).
Qed.

Lemma demo_tasks_canonical : store_canonical demo_cast demo_tasks.
Proof.
  intros taskId task Hl. unfold demo_tasks in Hl.
  apply lookup_singleton_Some in Hl as [_ <-].
  intros sh Hin. apply list_elem_of_singleton in Hin as ->. done.
Qed.

(** Listing a user in another spelling of the id adds a second entry for
    the user behind the one there is, which goes on deciding: here Dee
    keeps edit although the request says view. *)
Example router_share_other_spelling :
  let cast := fun u => if String.eqb u "U4" then Some "u4" else Some u in
  let tasks' := (router_share cast demo_tasks (Some "u1") "T1" ["U4"] "view").1 in
  (task_sharedWith <$> tasks' !! "T1")
    = Some [mkShare "u4" Edit "u1"; mkShare "u4" View "u1"]
  /\ (fun t => hasAccess t "u4" Edit) <$> tasks' !! "T1" = Some true.
Proof. by vm_compute. Qed.

(** X5: after a share request answered with 200, every listed id casts,
    and the user it names may view the task.  Such a user who is neither
    the owner nor an assignee, and who is listed in the stored form of the
    id or had no share entry before, holds exactly the permissions up to
    the one of the request, whatever was shared before. *)
Theorem router_share_grants (cast : UserId -> option UserId)
    (tasks : gmap TaskId Task) (reqUser : option UserId) (taskId : TaskId)
    (userIds : list UserId) (permission : string)
    (tasks' : gmap TaskId Task) (response : HttpResponse) :
  cast_idempotent cast ->
  store_canonical cast tasks ->
  router_share cast tasks reqUser taskId userIds permission
    = (tasks', response) ->
  http_status response = 200 ->
  exists id task task' p,
    cast taskId = Some id
    /\ tasks !! id = Some task /\ tasks' !! id = Some task'
    /\ parse_permission permission = Some p
    /\ forall u, u ∈ userIds ->
         exists c,
           cast u = Some c
           /\ hasAccess task' c View = true
           /\ (task_owner task <> c -> ~ is_assignee task c ->
               u = c \/ ~ is_shared task c ->
               forall req, hasAccess task' c req = true <-> rank req <= rank p).
Proof.
  intros Hid Hstore Hr H200.
  destruct (router_share_200 _ _ _ _ _ _ _ _ Hr H200)
    as (id & sharedBy & task & p & l' & Hcid & -> & Hl & Ha & Hp & He & ->).
  exists id, task. eexists _, p. split; [done|]. split; [done|].
  split; [apply lookup_insert_eq|]. split; [done|]. intros u Hu.
  destruct (share_each_spec _ _ _ _ _ _ Hid (Hstore _ _ Hl) He)
    as (_ & Hcast & Hfp).
  destruct (Hcast u Hu) as [c Hc]. exists c. split; [done|].
  assert (Hin : Some c ∈ cast <$> userIds).
  { rewrite <- Hc. apply list_elem_of_fmap. by exists u. }
  split.
  - rewrite hasAccess_first_permission.
    cbn [task_owner task_assignees task_sharedWith]. rewrite Hfp.
    apply orb_true_iff. right.
    destruct (first_permission (task_sharedWith task) c) as [q|].
    + case_bool_decide; apply bool_decide_eq_true; simpl; lia.
    + rewrite bool_decide_eq_true_2 by done.
      apply bool_decide_eq_true. simpl. lia.
  - intros Ho Has Hexact req. rewrite hasAccess_first_permission.
    cbn [task_owner task_assignees task_sharedWith]. rewrite Hfp.
    apply String.eqb_neq in Ho. rewrite Ho.
    apply some_assignee_false in Has. rewrite Has. cbn [orb].
    destruct (first_permission (task_sharedWith task) c) as [q|] eqn:Hq.
    + destruct Hexact as [->|Hns].
      * rewrite bool_decide_eq_true_2 by done. apply bool_decide_eq_true.
      * exfalso. apply Hns. apply is_shared_first_permission. by rewrite Hq.
    + rewrite bool_decide_eq_true_2 by done. apply bool_decide_eq_true.
Qed.

Lemma router_share_grants_witness :
  exists id task task' p,
    demo_cast "T1" = Some id
    /\ demo_tasks !! id = Some task
    /\ (router_share demo_cast demo_tasks (Some "u1") "T1" ["U3"; "u4"]
          "view").1 !! id = Some task'
    /\ parse_permission "view" = Some p
    /\ forall u, u ∈ ["U3"; "u4"] ->
         exists c,
           demo_cast u = Some c
           /\ hasAccess task' c View = true
           /\ (task_owner task <> c -> ~ is_assignee task c ->
               u = c \/ ~ is_shared task c ->
               forall req, hasAccess task' c req = true <-> rank req <= rank p).
Proof.
  apply (router_share_grants demo_cast demo_tasks (Some "u1") "T1"
           ["U3"; "u4"] "view" _
           (router_share demo_cast demo_tasks (Some "u1") "T1"
              ["U3"; "u4"] "view").2).
  - apply demo_cast_idempotent.
  - apply demo_tasks_canonical.
  - apply surjective_pairing.
  - by vm_compute.
Defined.

(** X6: a share request changes only share entries of the one task: every
    other task, and the owner, assignees, title and subtasks of the task,
    are untouched, and a request not answered with 200 leaves the store as
    it was.  The access of a user is unchanged when the id of the user is
    not listed in its stored form and either the user had a share entry
    already or no listed id casts to the user. *)
Theorem router_share_frame (cast : UserId -> option UserId)
    (tasks : gmap TaskId Task) (reqUser : option UserId) (taskId : TaskId)
    (userIds : list UserId) (permission : string)
    (tasks' : gmap TaskId Task) (response : HttpResponse) :
  cast_idempotent cast ->
  store_canonical cast tasks ->
  router_share cast tasks reqUser taskId userIds permission
    = (tasks', response) ->
  (http_status response <> 200 -> tasks' = tasks)
  /\ (forall tid, cast taskId <> Some tid -> tasks' !! tid = tasks !! tid)
  /\ (forall id task,
        cast taskId = Some id -> tasks !! id = Some task ->
        exists task',
          tasks' !! id = Some task'
          /\ task_owner task' = task_owner task
          /\ task_assignees task' = task_assignees task
          /\ task_title task' = task_title task
          /\ task_subtasks task' = task_subtasks task
          /\ forall v,
               v ∉ userIds ->
               is_shared task v \/ Some v ∉ cast <$> userIds ->
               forall req, hasAccess task' v req = hasAccess task v req).
Proof.
  intros Hid Hstore Hr. split; [by eapply router_share_not_200|].
  destruct (decide (http_status response = 200)) as [H200|Hn].
  - destruct (router_share_200 _ _ _ _ _ _ _ _ Hr H200)
      as (id & sharedBy & task & p & l' & Hcid & -> & Hl & Ha & Hp & He & ->).
    split.
    + intros tid Hne. rewrite lookup_insert_ne; [done|]. congruence.
    + intros id0 task0 Hcid0 Hl0. rewrite Hcid in Hcid0. injection Hcid0 as <-.
      rewrite Hl in Hl0. injection Hl0 as <-.
      eexists. split; [apply lookup_insert_eq|]. simpl.
      split; [done|]. split; [done|]. split; [done|]. split; [done|].
      intros v Hv Hkeep req. rewrite !hasAccess_first_permission.
      cbn [task_owner task_assignees task_sharedWith].
      destruct (share_each_spec _ _ _ _ _ _ Hid (Hstore _ _ Hl) He)
        as (_ & _ & Hfp).
      rewrite Hfp.
      destruct (first_permission (task_sharedWith task) v) as [q|] eqn:Hq.
      * by rewrite bool_decide_eq_false_2.
      * destruct Hkeep as [Hs|Hnc].
        -- apply is_shared_first_permission in Hs. by rewrite Hq in Hs.
        -- by rewrite bool_decide_eq_false_2.
  - rewrite (router_share_not_200 _ _ _ _ _ _ _ _ Hr Hn).
    split; [done|]. intros id task _ Hl. by exists task.
Qed.

Lemma router_share_frame_witness :
  let r := router_share demo_cast demo_tasks (Some "u2") "T1" ["U3"] "admin" in
  (http_status r.2 <> 200 -> r.1 = demo_tasks)
  /\ (forall tid, demo_cast "T1" <> Some tid -> r.1 !! tid = demo_tasks !! tid)
  /\ (forall id task,
        demo_cast "T1" = Some id -> demo_tasks !! id = Some task ->
        exists task',
          r.1 !! id = Some task'
          /\ task_owner task' = task_owner task
          /\ task_assignees task' = task_assignees task
          /\ task_title task' = task_title task
          /\ task_subtasks task' = task_subtasks task
          /\ forall v,
               v ∉ ["U3"] ->
               is_shared task v \/ Some v ∉ demo_cast <$> ["U3"] ->
               forall req, hasAccess task' v req = hasAccess task v req).
Proof.
  apply (router_share_frame demo_cast demo_tasks (Some "u2") "T1" ["U3"]
           "admin").
  - apply demo_cast_idempotent.
  - apply demo_tasks_canonical.
  - apply surjective_pairing.
Defined.

(** X7: after a share request answered with 200 the users with a share
    entry are those who had one and those a listed id casts to.  When every
    listed id is in its stored form, a task with one entry per user keeps
    one entry per user, also when an id is listed twice; an id in another
    spelling can add a second entry for a user. *)
Theorem router_share_entries (cast : UserId -> option UserId)
    (tasks : gmap TaskId Task) (reqUser : option UserId) (taskId : TaskId)
    (userIds : list UserId) (permission : string)
    (tasks' : gmap TaskId Task) (response : HttpResponse) :
  cast_idempotent cast ->
  store_canonical cast tasks ->
  router_share cast tasks reqUser taskId userIds permission
    = (tasks', response) ->
  http_status response = 200 ->
  exists id task task',
    cast taskId = Some id
    /\ tasks !! id = Some task /\ tasks' !! id = Some task'
    /\ (forall v, is_shared task' v <->
                  is_shared task v \/ Some v ∈ cast <$> userIds)
    /\ ((forall u, u ∈ userIds -> cast u = Some u) ->
        NoDup (share_user <$> task_sharedWith task) ->
        NoDup (share_user <$> task_sharedWith task')).
Proof.
  intros Hid Hstore Hr H200.
  destruct (router_share_200 _ _ _ _ _ _ _ _ Hr H200)
    as (id & sharedBy & task & p & l' & Hcid & -> & Hl & Ha & Hp & He & ->).
  exists id, task. eexists. split; [done|]. split; [done|].
  split; [apply lookup_insert_eq|]. split.
  - intros v. rewrite !is_shared_first_permission.
    cbn [task_sharedWith].
    destruct (share_each_spec _ _ _ _ _ _ Hid (Hstore _ _ Hl) He)
      as (_ & _ & Hfp).
    rewrite Hfp.
    destruct (first_permission (task_sharedWith task) v) as [q|].
    + case_bool_decide; naive_solver.
    + case_bool_decide; naive_solver.
  - intros Hcan Hnd. cbn [task_sharedWith]. by eapply share_each_NoDup.
Qed.

Lemma router_share_entries_witness :
  exists id task task',
    demo_cast "T1" = Some id
    /\ demo_tasks !! id = Some task
    /\ (router_share demo_cast demo_tasks (Some "u1") "T1" ["u3"; "u4"; "u3"]
          "edit").1 !! id = Some task'
    /\ (forall v, is_shared task' v <->
                  is_shared task v \/ Some v ∈ demo_cast <$> ["u3"; "u4"; "u3"])
    /\ ((forall u, u ∈ ["u3"; "u4"; "u3"] -> demo_cast u = Some u) ->
        NoDup (share_user <$> task_sharedWith task) ->
        NoDup (share_user <$> task_sharedWith task')).
Proof.
  apply (router_share_entries demo_cast demo_tasks (Some "u1") "T1"
           ["u3"; "u4"; "u3"] "edit" _
           (router_share demo_cast demo_tasks (Some "u1") "T1"
              ["u3"; "u4"; "u3"] "edit").2).
  - apply demo_cast_idempotent.
  - apply demo_tasks_canonical.
  - apply surjective_pairing.
  - by vm_compute.
Defined.
(** ** Invariants of the socket server *)

Lemma elem_of_connectionsOf u st m :
  m ∈ connectionsOf u st <->
  exists user, sockets st !! m = Some user /\ user_id user = u.
Proof.
  unfold connectionsOf. rewrite elem_of_dom. unfold is_Some.
  setoid_rewrite map_lookup_filter_Some. simpl. naive_solver.
Qed.

Lemma members_accept s user st r : members r (accept s user st) = members r st.
Proof. done. Qed.

Lemma members_close s st r : members r (close s st) = members r st ∖ {[s]}.
Proof. unfold close. apply (members_leaveAll s st r). Qed.

(** The state of the sockets and of the registry after one input. *)
Lemma step_connect db st s user st' out :
  step db st (Connect s user) = Some (st', out) ->
  sockets st !! s = None
  /\ sockets st' = <[s := user]> (sockets st)
  /\ connectedUsers st' = <[user_id user := mkConnEntry s user]> (connectedUsers st)
  /\ (forall r, members r st' =
        if decide (user_room (user_id user) = r) then members r st ∪ {[s]}
        else members r st).
Proof.
  simpl. destruct (sockets st !! s) eqn:Hs; [done|]. intros Hstep.
  step_state Hstep. split; [done|]. split; [reflexivity|].
  split; [reflexivity|].
  intros r. rewrite members_join. by case_decide; subst.
Qed.

Lemma step_event db st s ev st' out :
  step db st (Event s ev) = Some (st', out) ->
  exists user,
    sockets st !! s = Some user
    /\ sockets st' = sockets st
    /\ connectedUsers st' = connectedUsers st
    /\ (st' = st
        \/ (exists t, forall r, members r st' =
              if decide (task_room t = r) then members r st ∪ {[s]}
              else members r st)
        \/ (exists t, forall r, members r st' =
              if decide (task_room t = r) then members r st ∖ {[s]}
              else members r st)).
Proof.
  simpl. destruct (sockets st !! s) as [user|] eqn:Hs; [|done]. intros Hstep.
  step_state Hstep. exists user. split; [done|].
  destruct (on_event_state db st s user ev) as [-> | [[t ->] | [t ->]]].
  - by repeat split; try left.
  - split; [done|]. split; [done|]. right. left. exists t. intros r.
    rewrite members_join. by case_decide; subst.
  - split; [done|]. split; [done|]. right. right. exists t. intros r.
    rewrite members_leave. by case_decide; subst.
Qed.

Lemma step_disconnect db st s st' out :
  step db st (Disconnect s) = Some (st', out) ->
  exists user,
    sockets st !! s = Some user
    /\ sockets st' = delete s (sockets st)
    /\ connectedUsers st' = delete (user_id user) (connectedUsers st)
    /\ (forall r, members r st' = members r st ∖ {[s]}).
Proof.
  simpl. destruct (sockets st !! s) as [user|] eqn:Hs; [|done]. intros Hstep.
  step_state Hstep. exists user. split; [done|]. split; [reflexivity|].
  split; [reflexivity|].
  intros r. apply (members_leaveAll s st r).
Qed.

Lemma step_inbox_owned db st i st' out :
  step db st i = Some (st', out) -> inbox_owned st -> inbox_owned st'.
Proof.
  unfold inbox_owned. intros Hstep Hinv u m.
  destruct i as [s user | s ev | s].
  - apply step_connect in Hstep as (Hs & -> & _ & Hm). rewrite Hm.
    case_decide as Hr.
    + apply user_room_inj in Hr. subst u.
      rewrite elem_of_union, elem_of_singleton. intros [Hin | ->].
      * destruct (Hinv _ _ Hin) as (user0 & Hs0 & Hu). exists user0.
        split; [|done]. rewrite lookup_insert_ne; [done|]. congruence.
      * exists user. by rewrite lookup_insert_eq.
    + intros Hin. destruct (Hinv _ _ Hin) as (user0 & Hs0 & Hu). exists user0.
      split; [|done]. rewrite lookup_insert_ne; [done|]. congruence.
  - apply step_event in Hstep as (user & Hs & -> & _ & [-> | [[t Hm] | [t Hm]]]).
    + apply Hinv.
    + rewrite Hm, decide_False; [apply Hinv|].
      intros Heq. by apply (user_room_task_room u t).
    + rewrite Hm, decide_False; [apply Hinv|].
      intros Heq. by apply (user_room_task_room u t).
  - apply step_disconnect in Hstep as (user & Hs & -> & _ & Hm). rewrite Hm.
    rewrite elem_of_difference, elem_of_singleton. intros [Hin Hne].
    destruct (Hinv _ _ Hin) as (user0 & Hs0 & Hu). exists user0.
    by rewrite lookup_delete_ne.
Qed.

Lemma step_inbox_complete db st i st' out :
  step db st i = Some (st', out) -> inbox_complete st -> inbox_complete st'.
Proof.
  unfold inbox_complete. intros Hstep Hinv s0 user0.
  destruct i as [s user | s ev | s].
  - apply step_connect in Hstep as (Hs & -> & _ & Hm). rewrite Hm.
    rewrite lookup_insert. case_decide as Heq.
    + intros [= <-]. rewrite decide_True by done. set_solver.
    + intros Hs0. apply Hinv in Hs0. case_decide; set_solver.
  - apply step_event in Hstep as (user & Hs & -> & _ & [-> | [[t Hm] | [t Hm]]]).
    + apply Hinv.
    + rewrite Hm. intros Hs0. apply Hinv in Hs0. case_decide; set_solver.
    + rewrite Hm, decide_False; [apply Hinv|].
      intros Heq. by apply (user_room_task_room (user_id user0) t).
  - apply step_disconnect in Hstep as (user & Hs & -> & _ & Hm). rewrite Hm.
    rewrite lookup_delete. case_decide as Heq; [done|]. intros Hs0.
    apply Hinv in Hs0. set_solver.
Qed.

Lemma step_registry_live db st i st' out :
  step db st i = Some (st', out) -> registry_live st -> registry_live st'.
Proof.
  unfold registry_live. intros Hstep Hinv u e.
  destruct i as [s user | s ev | s].
  - apply step_connect in Hstep as (Hs & -> & -> & _).
    rewrite lookup_insert. case_decide as Heq.
    + intros [= <-]. simpl. by rewrite lookup_insert_eq.
    + intros He. destruct (Hinv _ _ He) as [Hl Hu]. split; [|done].
      rewrite lookup_insert_ne; [done|]. congruence.
  - apply step_event in Hstep as (user & Hs & -> & -> & _). apply Hinv.
  - apply step_disconnect in Hstep as (user & Hs & -> & -> & _).
    rewrite lookup_delete. case_decide as Heq; [done|]. intros He.
    destruct (Hinv _ _ He) as [Hl Hu]. split; [|done].
    rewrite lookup_delete_ne; [done|]. congruence.
Qed.

Lemma reachable_inbox_owned ok st : reachable_by ok st -> inbox_owned st.
Proof.
  induction 1 as [|db st i st' out _ IH _ Hstep].
  - intros u m. unfold members. simpl. rewrite lookup_empty. set_solver.
  - by eapply step_inbox_owned.
Qed.

Lemma reachable_inbox_complete ok st : reachable_by ok st -> inbox_complete st.
Proof.
  induction 1 as [|db st i st' out _ IH _ Hstep].
  - intros s user. simpl. by rewrite lookup_empty.
  - by eapply step_inbox_complete.
Qed.

Lemma reachable_registry_live ok st : reachable_by ok st -> registry_live st.
Proof.
  induction 1 as [|db st i st' out _ IH _ Hstep].
  - intros u e. simpl. by rewrite lookup_empty.
  - by eapply step_registry_live.
Qed.

Lemma reachable_inbox ok st u :
  reachable_by ok st -> members (user_room u) st = connectionsOf u st.
Proof.
  intros Hr. apply set_eq. intros m. rewrite elem_of_connectionsOf. split.
  - by apply reachable_inbox_owned with ok.
  - intros (user & Hs & <-). by apply reachable_inbox_complete with ok.
Qed.

(** X8: in every reachable state every member of every room is a live
    connection: no room keeps a connection that has closed. *)
Theorem rooms_hold_live_connections (st : State) :
  reachable st -> rooms_live st.
Proof. apply reachable_rooms_live. Qed.

Lemma rooms_hold_live_connections_witness :
  rooms_live (state_after demo_tab_closed).
Proof.
  apply rooms_hold_live_connections, reachable_state_after.
Defined.

(** X9: in every reachable state the inbox room of a user holds exactly
    the live connections of that user: each connection is put there when it
    connects, no handler lets a connection into or out of an inbox room. *)
Theorem inbox_is_connections (st : State) (u : UserId) :
  reachable st -> members (user_room u) st = connectionsOf u st.
Proof. apply reachable_inbox. Qed.

Lemma inbox_is_connections_witness :
  members (user_room "u1") (state_after demo_two_tabs)
  = connectionsOf "u1" (state_after demo_two_tabs).
Proof. apply inbox_is_connections, reachable_state_after. Defined.

(** X10: in every reachable state every entry of [connectedUsers] names a
    live connection of the user it is filed under; the registry never lists
    a closed connection. *)
Theorem registry_lists_live_connections (st : State) :
  reachable st -> registry_live st.
Proof. apply reachable_registry_live. Qed.

Lemma registry_lists_live_connections_witness :
  registry_live (state_after demo_tab_closed).
Proof.
  apply registry_lists_live_connections, reachable_state_after.
Defined.
(** ** The handlers, one by one *)






(** X12: when the store rejects the query, a join and every publishing
    handler answer with one error event to the sender, write to no other
    connection and leave the server state unchanged. *)
Theorem store_failure_contained (st : State) (s : SocketId) (user : SocketUser)
    (ev : ClientEvent) :
  sockets st !! s = Some user ->
  is_Some (required_permission ev) \/ (exists taskId, ev = JoinTask taskId) ->
  exists message, step None st (Event s ev) = Some (st, [(s, EvError message)]).
Proof.
  intros Hs Hq. simpl. rewrite Hs.
  destruct ev; simpl in Hq;
    try (exfalso; destruct Hq as [[? ?] | [? ?]]; done);
    by eexists.
Qed.

Lemma store_failure_contained_witness :
  exists message,
    step None (state_after demo_in_room) (Event "s2" (JoinTask "T1"))
    = Some (state_after demo_in_room, [("s2", EvError message)]).
Proof.
  apply (store_failure_contained (state_after demo_in_room) "s2" bob).
  - by vm_compute.
  - right. by eexists.
Defined.

(** X13: only join and leave requests change the server state; every other
    client event, accepted or refused, leaves the live sockets, the rooms
    and the registry exactly as they were. *)
Theorem events_read_only (db : Db) (st : State) (s : SocketId) (ev : ClientEvent)
    (st' : State) (out : list Delivery) :
  changes_rooms ev = false ->
  step db st (Event s ev) = Some (st', out) ->
  st' = st.
Proof.
  intros Hc. simpl. destruct (sockets st !! s) as [user|]; [|done].
  intros Hstep. apply (f_equal (fmap fst)) in Hstep. simpl in Hstep.
  injection Hstep as <-.
  destruct ev; simpl in Hc; try done; simpl.
  - unfold on_task_update. destruct (findById _ _) as [[?|]|]; simpl;
      [destruct (hasAccess _ _ _)|..]; done.
  - unfold on_task_comment. destruct (findById _ _) as [[?|]|]; simpl;
      [destruct (hasAccess _ _ _)|..]; done.
  - unfold on_task_status_change. destruct (findById _ _) as [[?|]|]; simpl;
      [destruct (hasAccess _ _ _)|..]; done.
  - unfold on_collaboration_invite. destruct (findById _ _) as [[?|]|]; simpl;
      [destruct (hasAccess _ _ _)|..]; done.
  - unfold on_user_activity. destruct metadataTaskId; [|done].
    by destruct (_ && _).
Qed.

Lemma events_read_only_witness :
  (on_event demo_db (state_after demo_in_room) "s1" ann
     (TaskStatusChange "T1" "todo" "done")).1
  = state_after demo_in_room.
Proof.
  apply (events_read_only demo_db (state_after demo_in_room) "s1"
           (TaskStatusChange "T1" "todo" "done") _
           (on_event demo_db (state_after demo_in_room) "s1" ann
              (TaskStatusChange "T1" "todo" "done")).2).
  - done.
  - by vm_compute.
Defined.
(** ** Joining, leaving, connecting and disconnecting *)

Lemma join_member_id s r st : s ∈ members r st -> join s r st = st.
Proof.
  intros Hin. unfold join, members in *.
  destruct (rooms st !! r) as [ms|] eqn:Hr; simpl in *; [|set_solver].
  assert (ms ∪ {[s]} = ms) as -> by set_solver.
  rewrite insert_id by done. by destruct st.
Qed.

Lemma findOne_related_granted tasks taskId task u :
  tasks !! taskId = Some task -> hasAccess task u View = true ->
  findOne_related (Some tasks) taskId u = Resolved (Some task).
Proof.
  intros Hl Ha. unfold findOne_related.
  by rewrite Hl, related_hasAccess_view, Ha.
Qed.

(** X14: a join by a connection whose user may view the task adds the
    connection to the task room and to no other room, confirms to the
    joiner and announces the user to every other member.  When the
    connection is already a member the state stays as it is, and the
    confirmation and the announcement are written again. *)
Theorem join_task_granted (tasks : gmap TaskId Task) (st : State) (s : SocketId)
    (user : SocketUser) (taskId : TaskId) (task : Task) :
  sockets st !! s = Some user ->
  tasks !! taskId = Some task ->
  hasAccess task (user_id user) View = true ->
  exists st' out,
    step (Some tasks) st (Event s (JoinTask taskId)) = Some (st', out)
    /\ (forall r, members r st' =
          if decide (r = task_room taskId) then members r st ∪ {[s]}
          else members r st)
    /\ (forall m e,
          (m, e) ∈ out <->
          (m = s /\ e = EvJoinedTask taskId)
          \/ (m ∈ members (task_room taskId) st /\ m <> s
              /\ e = EvUserJoined (user_id user) (userName user) taskId))
    /\ (s ∈ members (task_room taskId) st -> st' = st).
Proof.
  intros Hs Hl Ha. eexists _, _. split.
  { simpl. rewrite Hs. unfold on_join_task.
    by rewrite (findOne_related_granted _ _ _ _ Hl Ha). }
  split; [|split].
  - intros r. rewrite members_join. by repeat case_decide; subst.
  - intros m e. rewrite elem_of_app, elem_of_emit_others, members_join.
    rewrite decide_True by done. unfold emit_self.
    rewrite list_elem_of_singleton. split.
    + intros [[= -> ->] | (Hm & Hne & ->)]; [by left|]. right. set_solver.
    + intros [[-> ->] | (Hm & Hne & ->)]; [by left|]. right. set_solver.
  - apply join_member_id.
Qed.

Lemma join_task_granted_witness :
  exists st' out,
    step (Some demo_tasks) (state_after demo_in_room) (Event "s2" (JoinTask "T1"))
      = Some (st', out)
    /\ (forall r, members r st' =
          if decide (r = task_room "T1")
          then members r (state_after demo_in_room) ∪ {["s2"]}
          else members r (state_after demo_in_room))
    /\ (forall m e,
          (m, e) ∈ out <->
          (m = "s2" /\ e = EvJoinedTask "T1")
          \/ (m ∈ members (task_room "T1") (state_after demo_in_room) /\ m <> "s2"
              /\ e = EvUserJoined (user_id bob) (userName bob) "T1"))
    /\ ("s2" ∈ members (task_room "T1") (state_after demo_in_room) ->
        st' = state_after demo_in_room).
Proof.
  apply (join_task_granted demo_tasks (state_after demo_in_room) "s2" bob "T1"
           demo_task).
  - by vm_compute.
  - by vm_compute.
  - by vm_compute.
Defined.

(** X15: a leave request is checked against nothing: whatever the store
    holds and whether or not the connection was a member, the connection is
    out of the task room afterwards, the other rooms are untouched, the
    sender is told it left and every remaining member is told the user
    left. *)
Theorem leave_task_unchecked (db : Db) (st : State) (s : SocketId)
    (user : SocketUser) (taskId : TaskId) :
  sockets st !! s = Some user ->
  exists st' out,
    step db st (Event s (LeaveTask taskId)) = Some (st', out)
    /\ (forall r, members r st' =
          if decide (r = task_room taskId) then members r st ∖ {[s]}
          else members r st)
    /\ (forall m e,
          (m, e) ∈ out <->
          (m = s /\ e = EvLeftTask taskId)
          \/ (m ∈ members (task_room taskId) st /\ m <> s
              /\ e = EvUserLeft (user_id user) (userName user) (Some taskId) None)).
Proof.
  intros Hs. eexists _, _. split.
  { simpl. rewrite Hs. unfold on_leave_task. reflexivity. }
  split.
  - intros r. rewrite members_leave. by repeat case_decide; subst.
  - intros m e. rewrite elem_of_app, elem_of_emit_others, members_leave.
    rewrite decide_True by done. unfold emit_self.
    rewrite list_elem_of_singleton. split.
    + intros [(Hm & Hne & ->) | [= -> ->]]; [|by left]. right. set_solver.
    + intros [[-> ->] | (Hm & Hne & ->)]; [by right|]. left. set_solver.
Qed.

Lemma leave_task_unchecked_witness :
  exists st' out,
    step None (state_after demo_in_room) (Event "s1" (LeaveTask "T9"))
      = Some (st', out)
    /\ (forall r, members r st' =
          if decide (r = task_room "T9")
          then members r (state_after demo_in_room) ∖ {["s1"]}
          else members r (state_after demo_in_room))
    /\ (forall m e,
          (m, e) ∈ out <->
          (m = "s1" /\ e = EvLeftTask "T9")
          \/ (m ∈ members (task_room "T9") (state_after demo_in_room) /\ m <> "s1"
              /\ e = EvUserLeft (user_id ann) (userName ann) (Some "T9") None)).
Proof.
  apply (leave_task_unchecked None (state_after demo_in_room) "s1" ann "T9").
  by vm_compute.
Defined.

(** X16: joining a task room and leaving it again gives every room the
    members it had, for a connection that was not in the room before. *)
Theorem join_then_leave (tasks : gmap TaskId Task) (db : Db) (st : State)
    (s : SocketId) (user : SocketUser) (taskId : TaskId) (task : Task) :
  sockets st !! s = Some user ->
  tasks !! taskId = Some task ->
  hasAccess task (user_id user) View = true ->
  s ∉ members (task_room taskId) st ->
  exists st1 out1 st2 out2,
    step (Some tasks) st (Event s (JoinTask taskId)) = Some (st1, out1)
    /\ step db st1 (Event s (LeaveTask taskId)) = Some (st2, out2)
    /\ forall r, members r st2 = members r st.
Proof.
  intros Hs Hl Ha Hn. eexists _, _, _, _. split.
  { simpl. rewrite Hs. unfold on_join_task.
    by rewrite (findOne_related_granted _ _ _ _ Hl Ha). }
  split.
  { simpl. rewrite Hs. unfold on_leave_task. reflexivity. }
  intros r. rewrite members_leave.
  case_decide as Hr; [subst r|]; rewrite members_join.
  - rewrite decide_True by done. set_solver.
  - by rewrite decide_False.
Qed.

Lemma join_then_leave_witness :
  exists st1 out1 st2 out2,
    step (Some demo_tasks) (state_after demo_connected) (Event "s2" (JoinTask "T1"))
      = Some (st1, out1)
    /\ step None st1 (Event "s2" (LeaveTask "T1")) = Some (st2, out2)
    /\ forall r, members r st2 = members r (state_after demo_connected).
Proof.
  apply (join_then_leave demo_tasks None (state_after demo_connected) "s2" bob
           "T1" demo_task).
  - by vm_compute.
  - by vm_compute.
  - by vm_compute.
  - intros H. by vm_compute in H.
Defined.

(** X17: when a connection opens, the server records it as the registry
    entry of its user, replacing any earlier entry, puts it into the inbox
    room of the user and into no other room, and confirms to it.  A store
    that rejects the presence query does not prevent any of this: the one
    event written is then the confirmation. *)
Theorem connection_registered (db : Db) (st : State) (s : SocketId)
    (user : SocketUser) :
  sockets st !! s = None ->
  exists st' out,
    step db st (Connect s user) = Some (st', out)
    /\ sockets st' !! s = Some user
    /\ connectedUsers st' !! user_id user = Some (mkConnEntry s user)
    /\ (forall r, members r st' =
          if decide (r = user_room (user_id user)) then members r st ∪ {[s]}
          else members r st)
    /\ (s, EvConnected (user_id user)) ∈ out
    /\ (db = None -> out = [(s, EvConnected (user_id user))]).
Proof.
  intros Hs. eexists _, _. split.
  { simpl. rewrite Hs. unfold on_connection. reflexivity. }
  split; [apply lookup_insert_eq|]. split; [apply lookup_insert_eq|].
  split; [|split].
  - intros r. rewrite members_join. by repeat case_decide; subst.
  - by left.
  - by intros ->.
Qed.

Lemma connection_registered_witness :
  exists st' out,
    step None (state_after demo_connected) (Connect "s3" ann) = Some (st', out)
    /\ sockets st' !! "s3" = Some ann
    /\ connectedUsers st' !! user_id ann = Some (mkConnEntry "s3" ann)
    /\ (forall r, members r st' =
          if decide (r = user_room (user_id ann))
          then members r (state_after demo_connected) ∪ {["s3"]}
          else members r (state_after demo_connected))
    /\ (("s3" : SocketId), EvConnected (user_id ann)) ∈ out
    /\ ((None : Db) = None -> out = [("s3", EvConnected (user_id ann))]).
Proof.
  apply (connection_registered None (state_after demo_connected) "s3" ann).
  by vm_compute.
Defined.

(** X18: when a connection closes it is gone from the live sockets and from
    every room, the registry entry of its user is removed, and the events
    written are offline announcements to other connections only: the loop
    that should tell the task rooms that the user left finds no room, the
    socket has left them before the handler runs. *)
Theorem disconnect_cleanup (db : Db) (st : State) (s : SocketId)
    (user : SocketUser) :
  sockets st !! s = Some user ->
  exists st' out,
    step db st (Disconnect s) = Some (st', out)
    /\ sockets st' !! s = None
    /\ connectedUsers st' !! user_id user = None
    /\ (forall r, members r st' = members r st ∖ {[s]})
    /\ (forall m e,
          (m, e) ∈ out -> m <> s /\ e = EvUserStatus (user_id user) Offline).
Proof.
  intros Hs. eexists _, _. split.
  { simpl. rewrite Hs. unfold on_disconnect. reflexivity. }
  split; [apply lookup_delete_eq|]. split; [apply lookup_delete_eq|].
  split; [intros r; apply (members_leaveAll s st r)|].
  intros m e Hin. apply elem_of_app in Hin as [Hin|Hin].
  - destruct db as [tasks|]; [|by apply elem_of_nil in Hin].
    apply elem_of_broadcastUserStatus in Hin as (c & _ & Hm & ->).
    split; [|done].
    change (m ∈ members (user_room c) (leaveAll s st)) in Hm.
    rewrite members_leaveAll in Hm. set_solver.
  - exfalso. apply list_elem_of_bind in Hin as (room & _ & Hroom).
    change (room ∈ socket_rooms s (close s st)) in Hroom.
    rewrite socket_rooms_close in Hroom. by apply elem_of_nil in Hroom.
Qed.

Lemma disconnect_cleanup_witness :
  exists st' out,
    step demo_db (state_after demo_in_room) (Disconnect "s1") = Some (st', out)
    /\ sockets st' !! "s1" = None
    /\ connectedUsers st' !! user_id ann = None
    /\ (forall r, members r st' = members r (state_after demo_in_room) ∖ {["s1"]})
    /\ (forall m e,
          (m, e) ∈ out -> m <> "s1" /\ e = EvUserStatus (user_id ann) Offline).
Proof.
  apply (disconnect_cleanup demo_db (state_after demo_in_room) "s1" ann).
  by vm_compute.
Defined.
(** ** Who receives what *)

(** Breaks membership in a list of deliveries down to the emission it
    comes from. *)
Ltac split_deliveries :=
  repeat match goal with
    | H : _ ∈ _ ++ _ |- _ => apply elem_of_app in H as [H|H]
    | H : _ ∈ _ ≫= _ |- _ => apply list_elem_of_bind in H as (? & H & ?)
    | H : _ ∈ emit_self _ _ |- _ => unfold emit_self in H
    | H : _ ∈ _ :: _ |- _ => apply elem_of_cons in H as [[= -> ->]|H]
    | H : _ ∈ emit_room _ _ _ |- _ => apply elem_of_emit_room in H as [H ->]
    | H : _ ∈ emit_others _ _ _ _ |- _ =>
        apply elem_of_emit_others in H as (H & ? & ->)
    | H : _ ∈ (if ?b then _ else _) |- _ => destruct b
    | H : _ ∈ [] |- _ => by apply elem_of_nil in H
    end.

Lemma broadcastUserStatus_members db st u status m e :
  (m, e) ∈ broadcastUserStatus db st u status -> exists r, m ∈ members r st.
Proof.
  destruct db as [tasks|]; [|by intros H; apply elem_of_nil in H].
  intros (c & _ & Hm & _)%elem_of_broadcastUserStatus. by eexists.
Qed.

Lemma step_deliveries db st i st' out :
  step db st i = Some (st', out) -> rooms_live st' ->
  forall m e, (m, e) ∈ out -> is_Some (sockets st' !! m).
Proof.
  intros Hstep Hlive m e Hin.
  destruct i as [s user | s ev | s]; simpl in Hstep.
  - destruct (sockets st !! s) eqn:Hs; [done|].
    unfold on_connection in Hstep. injection Hstep as <- <-.
    apply elem_of_cons in Hin as [[= -> ->]|Hin].
    + simpl. by rewrite lookup_insert_eq.
    + apply broadcastUserStatus_members in Hin as [r Hm]. by eapply Hlive.
  - destruct (sockets st !! s) as [user|] eqn:Hs; [|done].
    injection Hstep as Hstep.
    assert (Hself : is_Some (sockets st' !! s)).
    { apply (f_equal fst) in Hstep. simpl in Hstep. subst st'.
      destruct (on_event_state db st s user ev) as [-> | [[t ->] | [t ->]]];
        by rewrite ?Hs. }
    destruct ev; simpl in Hstep.
    + unfold on_join_task in Hstep.
      destruct (findOne_related _ _ _) as [[?|]|]; injection Hstep as <- <-;
        split_deliveries; eauto.
    + unfold on_leave_task in Hstep. injection Hstep as <- <-.
      split_deliveries; eauto.
    + unfold on_task_update in Hstep.
      destruct (findById _ _) as [[?|]|]; [destruct (hasAccess _ _ _)|..];
        injection Hstep as <- <-; split_deliveries; eauto.
    + unfold on_task_comment in Hstep.
      destruct (findById _ _) as [[?|]|]; [destruct (hasAccess _ _ _)|..];
        injection Hstep as <- <-; split_deliveries; eauto.
    + unfold on_task_typing in Hstep. injection Hstep as <- <-.
      split_deliveries; eauto.
    + unfold on_task_status_change in Hstep.
      destruct (findById _ _) as [[?|]|]; [destruct (hasAccess _ _ _)|..];
        injection Hstep as <- <-; split_deliveries; eauto.
    + unfold on_ai_chat in Hstep. injection Hstep as <- <-.
      split_deliveries; eauto.
    + unfold on_collaboration_invite in Hstep.
      destruct (findById _ _) as [[?|]|]; [destruct (hasAccess _ _ _)|..];
        injection Hstep as <- <-; split_deliveries; eauto.
    + unfold on_user_activity in Hstep.
      destruct metadataTaskId; [destruct (_ && _)|];
        injection Hstep as <- <-; split_deliveries; eauto.
    + injection Hstep as <- <-. by apply elem_of_nil in Hin.
  - destruct (sockets st !! s) as [user|] eqn:Hs; [|done].
    unfold on_disconnect in Hstep. injection Hstep as <- <-.
    apply elem_of_app in Hin as [Hin|Hin].
    + apply broadcastUserStatus_members in Hin as [r Hm]. by eapply Hlive.
    + split_deliveries. by eapply Hlive.
Qed.

(** X19: in every reachable state, whatever the input, every event is
    written to a connection that is live after the input: the server never
    writes to a closed connection, and never to the one that has just
    closed. *)
Theorem deliveries_to_live (db : Db) (st : State) (i : Input) (st' : State)
    (out : list Delivery) :
  reachable st ->
  step db st i = Some (st', out) ->
  forall m e, (m, e) ∈ out -> is_Some (sockets st' !! m).
Proof.
  intros Hr Hstep. eapply step_deliveries; [done|].
  apply (reachable_rooms_live (fun _ _ => True)).
  by eapply reach_step.
Qed.

Lemma deliveries_to_live_witness :
  is_Some (sockets (on_disconnect demo_db (close "s1" (state_after demo_in_room))
                      "s1" ann).1 !! "s2").
Proof.
  apply (deliveries_to_live demo_db (state_after demo_in_room) (Disconnect "s1")
           _ (on_disconnect demo_db (close "s1" (state_after demo_in_room))
                "s1" ann).2
           (reachable_state_after demo_in_room) ltac:(by vm_compute)
           "s2" (EvUserStatus "u1" Offline)).
  vm_compute. left.
Defined.

(** X20: in every reachable state an AI chat message of a connection is
    mirrored to exactly the other live connections of the same user, and
    the state is unchanged. *)
Theorem ai_chat_sync (db : Db) (st : State) (s : SocketId) (user : SocketUser)
    (message : string) :
  reachable st ->
  sockets st !! s = Some user ->
  exists out,
    step db st (Event s (AiChat message)) = Some (st, out)
    /\ forall m e,
         (m, e) ∈ out <->
         m ∈ connectionsOf (user_id user) st /\ m <> s /\ e = EvAiChatSync message.
Proof.
  intros Hr Hs. eexists. split.
  { simpl. by rewrite Hs. }
  intros m e. rewrite elem_of_emit_others.
  by rewrite (reachable_inbox _ _ _ Hr).
Qed.

Lemma ai_chat_sync_witness :
  exists out,
    step None (state_after demo_two_tabs) (Event "s1" (AiChat "hi"))
      = Some (state_after demo_two_tabs, out)
    /\ forall m e,
         (m, e) ∈ out <->
         m ∈ connectionsOf (user_id ann) (state_after demo_two_tabs)
         /\ m <> "s1" /\ e = EvAiChatSync "hi".
Proof.
  apply (ai_chat_sync None (state_after demo_two_tabs) "s1" ann "hi").
  - apply reachable_state_after.
  - by vm_compute.
Defined.

(** X21: in every reachable state a collaboration invite sent by a user
    who holds admin on the task is written to exactly the live connections
    of the invited user, and a confirmation to the sender; when the invited
    user has no live connection the invitation reaches no one and the
    sender is still told it was sent. *)
Theorem collaboration_invite_sent (tasks : gmap TaskId Task) (st : State)
    (s : SocketId) (user : SocketUser) (taskId : TaskId) (task : Task)
    (invitedUserId : UserId) (permission : string) :
  reachable st ->
  sockets st !! s = Some user ->
  tasks !! taskId = Some task ->
  hasAccess task (user_id user) Admin = true ->
  exists out,
    step (Some tasks) st
         (Event s (CollaborationInvite taskId invitedUserId permission))
      = Some (st, out)
    /\ (forall m e,
          (m, e) ∈ out <->
          (m ∈ connectionsOf invitedUserId st
           /\ e = EvCollaborationInvited taskId (task_title task) permission
                    (user_id user))
          \/ (m = s /\ e = EvCollaborationInviteSent taskId invitedUserId))
    /\ (connectionsOf invitedUserId st = ∅ ->
        out = [(s, EvCollaborationInviteSent taskId invitedUserId)]).
Proof.
  intros Hr Hs Hl Ha. eexists. split.
  { simpl. rewrite Hs. simpl. unfold on_collaboration_invite. simpl.
    by rewrite Hl, Ha. }
  split.
  - intros m e. rewrite elem_of_app, elem_of_emit_room.
    rewrite (reachable_inbox _ _ _ Hr). unfold emit_self.
    rewrite list_elem_of_singleton. naive_solver.
  - intros Hnone. unfold emit_room.
    by rewrite (reachable_inbox _ _ _ Hr), Hnone, elements_empty.
Qed.

Lemma collaboration_invite_sent_witness :
  exists out,
    step (Some demo_tasks) (state_after demo_in_room)
         (Event "s1" (CollaborationInvite "T1" "u3" "edit"))
      = Some (state_after demo_in_room, out)
    /\ (forall m e,
          (m, e) ∈ out <->
          (m ∈ connectionsOf "u3" (state_after demo_in_room)
           /\ e = EvCollaborationInvited "T1" (task_title demo_task) "edit"
                    (user_id ann))
          \/ (m = "s1" /\ e = EvCollaborationInviteSent "T1" "u3"))
    /\ (connectionsOf "u3" (state_after demo_in_room) = ∅ ->
        out = [("s1", EvCollaborationInviteSent "T1" "u3")]).
Proof.
  apply (collaboration_invite_sent demo_tasks (state_after demo_in_room) "s1" ann
           "T1" demo_task "u3" "edit").
  - apply reachable_state_after.
  - by vm_compute.
  - by vm_compute.
  - by vm_compute.
Defined.

(** X22: in every reachable state a presence broadcast for a user reaches
    exactly the live connections of the other users who take part in a task
    the user takes part in; the user's own connections never receive it,
    and a store that rejects the query silences the broadcast. *)
Theorem presence_targets (tasks : gmap TaskId Task) (st : State) (u : UserId)
    (status : Status) :
  reachable st ->
  (forall m e,
     (m, e) ∈ broadcastUserStatus (Some tasks) st u status <->
     e = EvUserStatus u status
     /\ exists user' taskId t,
          sockets st !! m = Some user' /\ user_id user' <> u
          /\ tasks !! taskId = Some t /\ takes_part t u
          /\ takes_part t (user_id user'))
  /\ broadcastUserStatus None st u status = [].
Proof.
  intros Hr. split; [|done]. intros m e.
  rewrite elem_of_broadcastUserStatus. split.
  - intros (c & Hc & Hm & ->). split; [done|].
    rewrite (reachable_inbox _ _ _ Hr) in Hm.
    apply elem_of_connectionsOf in Hm as (user' & Hs & <-).
    apply elem_of_collaboratorsOf in Hc as (Hne & taskId & t & Hl & Hu & Hc).
    by exists user', taskId, t.
  - intros (-> & user' & taskId & t & Hs & Hne & Hl & Hu & Hc).
    exists (user_id user'). split; [|split; [|done]].
    + apply elem_of_collaboratorsOf. split; [done|]. by exists taskId, t.
    + rewrite (reachable_inbox _ _ _ Hr). apply elem_of_connectionsOf.
      by exists user'.
Qed.

Lemma presence_targets_witness :
  (forall m e,
     (m, e) ∈ broadcastUserStatus (Some demo_tasks) (state_after demo_everyone)
                "u1" Online <->
     e = EvUserStatus "u1" Online
     /\ exists user' taskId t,
          sockets (state_after demo_everyone) !! m = Some user'
          /\ user_id user' <> "u1"
          /\ demo_tasks !! taskId = Some t /\ takes_part t "u1"
          /\ takes_part t (user_id user'))
  /\ broadcastUserStatus None (state_after demo_everyone) "u1" Online = [].
Proof.
  apply (presence_targets demo_tasks (state_after demo_everyone) "u1" Online).
  apply reachable_state_after.
Defined.

(** X23: being a collaborator is symmetric and irreflexive: one user is
    announced to another exactly when the other is announced to the one,
    and no user is a collaborator of itself. *)
Theorem collaborators_symmetric (tasks : gmap TaskId Task) (u c : UserId) :
  (c ∈ collaboratorsOf tasks u <-> u ∈ collaboratorsOf tasks c)
  /\ u ∉ collaboratorsOf tasks u.
Proof.
  rewrite !elem_of_collaboratorsOf. naive_solver.
Qed.
(** ** The task document: virtual fields, completion, statistics *)

(** X24: the [isOverdue] field the GET routes compute is the schema's
    virtual, and a completed task is never overdue.  The [progress] field
    of the routes is the schema's virtual except for a completed task that
    has subtasks, where the routes answer 100 and the virtual is 0. *)
Theorem route_virtuals_vs_schema (now : Z) (d : TaskDoc) :
  (route_virtuals now d).1 = isOverdue now d
  /\ (doc_status d = Completed -> isOverdue now d = false)
  /\ ((route_virtuals now d).2 = progress d <->
      task_subtasks (doc_task d) = [] \/ doc_status d <> Completed)
  /\ (doc_status d = Completed -> task_subtasks (doc_task d) <> [] ->
      (route_virtuals now d).2 = 100 /\ progress d = 0).
Proof.
  unfold route_virtuals, isOverdue, progress. simpl.
  split; [done|]. split; [|split].
  - intros ->. destruct (doc_dueDate d); [|done].
    by rewrite bool_decide_eq_true_2, andb_false_r.
  - destruct (task_subtasks (doc_task d)); case_bool_decide; naive_solver.
  - intros Hc Hs. rewrite bool_decide_eq_true_2 by done.
    by destruct (task_subtasks (doc_task d)).
Qed.

Lemma route_virtuals_vs_schema_witness :
  let d := mkTaskDoc (mkTask "t" "u1" [] [] ["T2"]) Completed (Some 5%Z)
                     (Some 7%Z) (Some "u1") false in
  (route_virtuals 9 d).1 = isOverdue 9 d
  /\ (doc_status d = Completed -> isOverdue 9 d = false)
  /\ ((route_virtuals 9 d).2 = progress d <->
      task_subtasks (doc_task d) = [] \/ doc_status d <> Completed)
  /\ (doc_status d = Completed -> task_subtasks (doc_task d) <> [] ->
      (route_virtuals 9 d).2 = 100 /\ progress d = 0).
Proof. intros d. apply (route_virtuals_vs_schema 9 d). Defined.

(** X25: the save hook touches the completion fields only.  When the
    status counts as modified, a completed task has a completion time
    afterwards, the one it had or else the time of the save, and a task
    that is not completed has neither a completion time nor a completing
    user; when it does not count as modified the document is saved as it
    is.  [complete] ends with status completed, the given time and the
    given user, whichever way the status counts. *)
Theorem pre_save_completion (now : Z) (statusModified : bool) (this : TaskDoc)
    (userId : UserId) :
  let saved := pre_save now statusModified this in
  (doc_task saved = doc_task this /\ doc_status saved = doc_status this
   /\ doc_dueDate saved = doc_dueDate this
   /\ doc_isArchived saved = doc_isArchived this)
  /\ (statusModified = true ->
      (doc_status this = Completed ->
       doc_completedAt saved = Some (default now (doc_completedAt this))
       /\ doc_completedBy saved = doc_completedBy this)
      /\ (doc_status this <> Completed ->
          doc_completedAt saved = None /\ doc_completedBy saved = None))
  /\ (statusModified = false -> saved = this)
  /\ complete now statusModified this userId
     = mkTaskDoc (doc_task this) Completed (doc_dueDate this) (Some now)
                 (Some userId) (doc_isArchived this).
Proof.
  unfold complete, pre_save.
  destruct this as [t st due ca cb ar]. simpl. split; [|split; [|split]].
  - destruct statusModified; [|done]. by destruct st, ca.
  - intros ->. destruct st, ca; simpl; naive_solver.
  - by intros ->.
  - by destruct statusModified.
Qed.

Lemma pre_save_completion_witness :
  let reopened := mkTaskDoc demo_task Todo None (Some 7%Z) (Some "u2") false in
  doc_completedAt (pre_save 9 true reopened) = None
  /\ doc_completedBy (pre_save 9 true reopened) = None.
Proof.
  intros reopened.
  by apply (pre_save_completion 9 true reopened "u2").
Defined.

(** *** Statistics *)

Lemma length_by_status (docs : list TaskDoc) :
  length docs =
    count_status Todo docs + count_status InProgress docs
    + count_status Review docs + count_status Completed docs
    + count_status Cancelled docs.
Proof.
  unfold count_status. induction docs as [|d docs IH]; [done|].
  rewrite !filter_cons. simpl. rewrite IH.
  destruct (doc_status d); repeat case_decide; simplify_eq; simpl; lia.
Qed.

Lemma overdue_not_completed now u (docs : list TaskDoc) :
  length (List.filter (overdue_match now u) docs)
  + count_status Completed (List.filter (stats_match u) docs)
  <= length (List.filter (stats_match u) docs).
Proof.
  unfold count_status. induction docs as [|d docs IH]; [done|].
  simpl. unfold overdue_match at 1.
  destruct (stats_match u d); simpl; [|lia].
  rewrite filter_cons.
  destruct (doc_dueDate d) as [due|]; simpl;
    [destruct (due <? now)%Z; simpl|];
    case_decide as Hc; try rewrite (bool_decide_eq_true_2 _ Hc);
    try rewrite (bool_decide_eq_false_2 _ Hc); simpl; lia.
Qed.

Lemma stats_of_groups o n1 n2 n3 n4 n5 :
  let s := foldl add_stat (mkStats 0 0 0 0 0 0 o)
             (filter (fun g : TaskStatus * nat => g.2 <> 0)
                [(Todo, n1); (InProgress, n2); (Review, n3); (Completed, n4);
                 (Cancelled, n5)]) in
  stats_todo s = n1 /\ stats_in_progress s = n2 /\ stats_review s = n3
  /\ stats_completed s = n4 /\ stats_cancelled s = n5
  /\ stats_total s = n1 + n2 + n3 + n4 + n5 /\ stats_overdue s = o.
Proof.
  rewrite !filter_cons, filter_nil. simpl.
  repeat case_decide; simpl; repeat split; lia.
Qed.

(** X26: in the statistics overview every status count is the number of
    selected tasks with that status, where the selected tasks are the
    non-archived ones the user owns or is assigned to (a task only shared
    with the user is not counted); the total is the number of selected
    tasks and the sum of the five counts; and the overdue tasks and the
    completed ones together are at most the total. *)
Theorem stats_overview_counts (now : Z) (docs : list TaskDoc) (userId : UserId) :
  let s := stats_overview now docs userId in
  let selected := List.filter (stats_match userId) docs in
  stats_todo s = count_status Todo selected
  /\ stats_in_progress s = count_status InProgress selected
  /\ stats_review s = count_status Review selected
  /\ stats_completed s = count_status Completed selected
  /\ stats_cancelled s = count_status Cancelled selected
  /\ stats_total s = length selected
  /\ stats_total s =
       stats_todo s + stats_in_progress s + stats_review s
       + stats_completed s + stats_cancelled s
  /\ stats_overdue s + stats_completed s <= stats_total s.
Proof.
  intros s selected. subst s. unfold stats_overview, group_by_status.
  fold selected. cbn [fmap list_fmap].
  pose proof (stats_of_groups
                (length (List.filter (overdue_match now userId) docs))
                (count_status Todo selected) (count_status InProgress selected)
                (count_status Review selected) (count_status Completed selected)
                (count_status Cancelled selected))
    as (H1 & H2 & H3 & H4 & H5 & Ht & Ho).
  pose proof (length_by_status selected) as Hlen.
  pose proof (overdue_not_completed now userId docs) as Hov.
  fold selected in Hov.
  rewrite H1, H2, H3, H4, H5, Ht, Ho. repeat split; lia.
Qed.
